(** * pcsc-deno: the ISO7816 APDU codec and the PC/SC FFI wrapper

    A shallow embedding of [src/iso7816/apdu.ts] and
    [src/deno-pcsc-ffi/pcsc-ffi.ts] (with the [FFICard] class that follows
    it), and the properties of the specification stated over it.

    JavaScript numbers are modelled by [Z] (only integral values occur in
    the code paths below), a [Uint8Array] by a list of bytes, exceptions
    by an error monad, and the native PC/SC library by an oracle whose
    calls are logged in a trace. *)

From Stdlib Require Import ZArith List String Bool Lia.
From Stdlib.Strings Require Import Byte.
Import ListNotations.

Local Open Scope Z_scope.

(** ** Exceptions and the error monad *)

Inductive Exception : Type :=
| RangeError
| JsError (message : string)
| SmartCardException (message : string)
| PCSCException (rc : Z) (func : string).

Inductive result (A : Type) : Type :=
| Ok (a : A)
| Throw (e : Exception).

Arguments Ok {A} a.
Arguments Throw {A} e.

Definition bind {A B : Type} (m : result A) (k : A -> result B) : result B :=
  match m with
  | Ok a => k a
  | Throw e => Throw e
  end.

Declare Scope result_scope.
Delimit Scope result_scope with result.
Notation "x <- m ;; k" := (bind m (fun x => k))
  (at level 61, m at next level, right associativity) : result_scope.
Notation "' p <- m ;; k" := (bind m (fun x => match x with p => k end))
  (at level 61, p pattern, m at next level, right associativity) : result_scope.
Local Open Scope result_scope.

(** ** The JavaScript values the code works on *)

Module JS.

(** A [Uint8Array]: its elements are bytes by construction. *)
Definition Uint8Array : Type := list byte.

(** Storing a number into a [Uint8Array] element (ToUint8). *)
Definition u8 (z : Z) : byte :=
  match Byte.of_N (Z.to_N (z mod 256)) with
  | Some b => b
  | None => x00
  end.

(** Reading an element back as a number. *)
Definition num (b : byte) : Z := Z.of_N (Byte.to_N b).

(** The operands of [>>] and [&] are converted to signed 32-bit integers. *)
Definition ToInt32 (z : Z) : Z := (z + 2 ^ 31) mod 2 ^ 32 - 2 ^ 31.

(** [x >> n] *)
Definition sar (x n : Z) : Z := Z.shiftr (ToInt32 x) n.

(** [x & y] *)
Definition band (x y : Z) : Z := Z.land (ToInt32 x) (ToInt32 y).

(** [a.length] *)
Definition size {A : Type} (a : list A) : Z := Z.of_nat (List.length a).

(** [new Uint8Array(n)]: zero filled; a negative length is a RangeError. *)
Definition new_Uint8Array (n : Z) : result Uint8Array :=
  if n <? 0 then Throw RangeError else Ok (repeat x00 (Z.to_nat n)).

(** [target.set(source, offset)]: a source that does not fit is a
    RangeError. *)
Definition set (target source : Uint8Array) (offset : Z) : result Uint8Array :=
  if (offset <? 0) || (size target <? offset + size source) then Throw RangeError
  else Ok (firstn (Z.to_nat offset) target ++ source
             ++ skipn (Z.to_nat (offset + size source)) target).

(** [target.set([n0, n1, ...], offset)] with an array of numbers. *)
Definition set_numbers (target : Uint8Array) (source : list Z) (offset : Z)
  : result Uint8Array :=
  set target (map u8 source) offset.

(** [target[index] = value]: an index out of range is ignored. *)
Definition store (target : Uint8Array) (index value : Z) : Uint8Array :=
  if (index <? 0) || (size target <=? index) then target
  else firstn (Z.to_nat index) target ++ u8 value
         :: skipn (Z.to_nat (index + 1)) target.

(** The relative index of [slice]: negative counts from the end, then
    clamped to the array. *)
Definition relative_index (length_ i : Z) : Z :=
  if i <? 0 then Z.max (length_ + i) 0 else Z.min i length_.

(** [a.slice(start, end)], for typed arrays and plain arrays alike. *)
Definition slice {A : Type} (a : list A) (start end_ : Z) : list A :=
  let k := relative_index (size a) start in
  let final := relative_index (size a) end_ in
  firstn (Z.to_nat (final - k)) (skipn (Z.to_nat k) a).

(** *** DataView over the whole buffer of a freshly allocated array *)

Definition bytes_le (width : nat) (value : Z) : list byte :=
  map (fun i => u8 (value / 2 ^ (8 * Z.of_nat i))) (seq 0 width).

Fixpoint number_le (bytes : list byte) : Z :=
  match bytes with
  | [] => 0
  | b :: rest => num b + 256 * number_le rest
  end.

Definition ordered (littleEndian : bool) (bytes : list byte) : list byte :=
  if littleEndian then bytes else rev bytes.

Definition setUint (width : nat) (view : Uint8Array) (byteOffset value : Z)
           (littleEndian : bool) : result Uint8Array :=
  if (byteOffset <? 0) || (size view <? byteOffset + Z.of_nat width)
  then Throw RangeError
  else set view (ordered littleEndian (bytes_le width value)) byteOffset.

Definition getUint (width : nat) (view : Uint8Array) (byteOffset : Z)
           (littleEndian : bool) : result Z :=
  if (byteOffset <? 0) || (size view <? byteOffset + Z.of_nat width)
  then Throw RangeError
  else Ok (number_le (ordered littleEndian
                        (firstn width (skipn (Z.to_nat byteOffset) view)))).

Definition setUint32 := setUint 4.
Definition getUint32 := getUint 4.
Definition getUint16 := getUint 2.
Definition getBigUint64 := getUint 8.

(** [x | y] *)
Definition bor (x y : Z) : Z := Z.lor (ToInt32 x) (ToInt32 y).

(** [x << n]: the shift count is taken modulo 32. *)
Definition shl (x n : Z) : Z := ToInt32 (Z.shiftl (ToInt32 x) (n mod 32)).

End JS.

Import JS.

(** Modelled from the spec: [buffer-utils.ts] ([BytesLike], [toUint8Array])
    is not part of the sources at hand.  Byte-like arguments are byte
    sequences already, and the conversion keeps their content. *)
Definition toUint8Array (bytes : Uint8Array) : Uint8Array := bytes.

(** Modelled from the spec: the same conversion applied to a plain array of
    numbers, which becomes a [Uint8Array] element by element. *)
Definition toUint8Array_numbers (numbers : list Z) : Uint8Array := map u8 numbers.

(** ** src/iso7816/apdu.ts *)

(** *** class CommandAPDU *)

Module CommandAPDU.

Record t : Type := mk {
  cla : Z;
  ins : Z;
  p1 : Z;
  p2 : Z;
  data : option Uint8Array;
  le : option Z;
  isExtended : bool;
  description : string
}.

(** The constructor; the description defaults to the empty string. *)
Definition new (cla ins p1 p2 : Z) (data : option Uint8Array)
           (le : option Z) (isExtended : bool) (options : option string)
  : t :=
  {| cla := cla; ins := ins; p1 := p1; p2 := p2;
     data := option_map toUint8Array data;
     le := le;
     isExtended := isExtended;
     description := match options with Some d => d | None => EmptyString end |}.

Definition Lc (a : t) : Z :=
  match data a with Some d => size d | None => 0 end.

Definition header (a : t) : Uint8Array :=
  map u8 [cla a; ins a; p1 a; p2 a].

(** The length field of [toBytes]: three bytes led by 0x00 when extended,
    one byte otherwise. *)
Definition length_field (isExtended : bool) (n : Z) : list Z :=
  if isExtended then [0; sar n 8; band n 255] else [n].

Definition field_width (isExtended : bool) : Z :=
  if isExtended then 3 else 1.

(** [toBytes(options?: { protocol?: number })] *)
Definition toBytes (a : t) (protocol : option Z) : result Uint8Array :=
  let isT0 := (match protocol with Some p => p | None => 1 end) =? 0 in
  let lc := Lc a in
  let isExtended := isExtended a && negb isT0 in
  let le := if (lc =? 0) || negb isT0
            then match le a with Some l => l | None => 0 end
            else 0 in
  let len := 4
             + (if lc =? 0 then 0 else field_width isExtended)
             + lc
             + (if le =? 0 then 0 else field_width isExtended) in
  raw <- new_Uint8Array len ;;
  let off := 0 in
  raw <- set_numbers raw [cla a; ins a; p1 a; p2 a] 0 ;;
  let off := off + 4 in
  '(raw, off) <-
    (if 0 <? lc then
       raw <- set_numbers raw (length_field isExtended lc) off ;;
       let off := off + field_width isExtended in
       raw <- set raw (match data a with Some d => d | None => [] end) off ;;
       Ok (raw, off + lc)
     else Ok (raw, off)) ;;
  '(raw, off) <-
    (if 0 <? le then
       raw <- set_numbers raw (length_field isExtended le) off ;;
       Ok (raw, off + field_width isExtended)
     else Ok (raw, off)) ;;
  Ok raw.

(** The values [toBytes] gives its local constants [isExtended] and [le]. *)
Definition effective_extended (a : t) (protocol : option Z) : bool :=
  isExtended a && negb ((match protocol with Some p => p | None => 1 end) =? 0).

Definition effective_le (a : t) (protocol : option Z) : Z :=
  if (Lc a =? 0) || negb ((match protocol with Some p => p | None => 1 end) =? 0)
  then match le a with Some l => l | None => 0 end
  else 0.

(** [static from(bytes, options?)] *)
Definition from (bytes : Uint8Array) (options : option string)
  : result t :=
  let buffer := toUint8Array bytes in
  if size buffer <? 4 then Throw (JsError "CommandAPDU: Invalid buffer") else
  match buffer with
  | cla :: ins :: p1 :: p2 :: rest =>
      let isExtended := false in
      let offset := 4 in
      let '(data, offset) :=
        if 1 <? size rest then
          match rest with
          | lc :: data =>
              (Some (slice data 0 (num lc)), offset + (1 + num lc))
          | [] => (None, offset)
          end
        else (None, offset) in
      let '(le, offset) :=
        if offset <? size buffer
        then (Some (num (nth (Z.to_nat offset) buffer x00)), offset + 1)
        else (None, offset) in
      let apdu := new (num cla) (num ins) (num p1) (num p2)
                                  data le isExtended options in
      if negb (size buffer =? offset)
      then Throw (SmartCardException "CommandAPDU: Invalid buffer")
      else Ok apdu
  | _ => Throw (JsError "CommandAPDU: Invalid buffer") (* fewer than 4 bytes *)
  end.

End CommandAPDU.

(** *** class ResponseAPDU *)

Module ResponseAPDU.

Record t : Type := mk {
  SW : Z;
  data : Uint8Array;
  description : string
}.

Definition La (r : t) : Z := size (data r).

(** The constructor [(bytes: BytesLike = [], options?)].  The status word
    is read through a DataView over [buffer.buffer], the whole underlying
    ArrayBuffer: for an array that spans its buffer, as every freshly
    allocated array does (those of [toBytes] and [slice] among them), these
    are the bytes of the array. *)
Definition new (bytes : option Uint8Array) (options : option string)
  : result t :=
  let buffer := toUint8Array (match bytes with Some b => b | None => [] end) in
  if size buffer <? 2 then Throw (SmartCardException "ResponseAPDU Buffer invalid")
  else
    let la := size buffer - 2 in
    sw <- getUint16 buffer la false ;;
    Ok {| SW := sw;
          data := slice buffer 0 la;
          description := match options with Some d => d | None => EmptyString end |}.

(** [set(sw, data)] *)
Definition set (r : t) (sw : Z) (data : Uint8Array) : t :=
  {| SW := sw; data := toUint8Array data; description := description r |}.

(** [static init(SW = 0x0000, data = [])] *)
Definition init (SW : option Z) (data : option Uint8Array) : result t :=
  let SW := match SW with Some s => s | None => 0 end in
  let data := match data with Some d => d | None => [] end in
  r <- new None None ;;
  Ok (set r SW data).

(** [toBytes(_options?)] *)
Definition toBytes (r : t) : result Uint8Array :=
  bytes <- new_Uint8Array (La r + 2) ;;
  bytes <- JS.set bytes (data r) 0 ;;
  let bytes := store bytes (La r) (band (sar (SW r) 8) 255) in
  let bytes := store bytes (La r + 1) (band (sar (SW r) 0) 255) in
  Ok bytes.

(** [setSW1(SW1)] and [setSW2(SW2)] *)
Definition setSW1 (r : t) (SW1 : Z) : t :=
  {| SW := bor (band (SW r) 255) (shl SW1 8);
     data := data r; description := description r |}.

Definition setSW2 (r : t) (SW2 : Z) : t :=
  {| SW := bor (band (SW r) 65280) SW2;
     data := data r; description := description r |}.

(** [static from(SW, data, options?)]: the constructor is handed the plain
    array [[...buffer, SW >> 8, SW & 0xff]]. *)
Definition from (SW : Z) (data : Uint8Array) (options : option string) : result t :=
  let buffer := toUint8Array data in
  new (Some (toUint8Array_numbers (map num buffer ++ [sar SW 8; band SW 255])))
      options.

End ResponseAPDU.

(** ** The native PC/SC library

    [pcsc.symbols] is the dynamically loaded library.  Each entry point
    receives pointers to buffers it may write to; a call is recorded with
    the content of every buffer at the time of the call, and the reply
    carries the status code and what the library wrote. *)

Module Native.

Inductive Call : Type :=
| SCardTransmit (hCard : Z) (pioSendPci sendBuffer : Uint8Array)
                (sendLength : Z) (pioRecvPci recvBuffer length : Uint8Array)
| SCardGetStatusChange (hContext timeout : Z) (stateBuffer : Uint8Array)
                       (cReaders : Z)
| SCardControl (hCard ioctl : Z) (dataIn : Uint8Array) (inLength : Z)
               (dataOut : Uint8Array) (outLength : Z) (outLen : Uint8Array).

Record Reply : Type := mkReply {
  rc : Z;
  out1 : Uint8Array;
  out2 : Uint8Array
}.

Definition Trace : Type := list Call.

(** The library answers a call knowing the calls made before it. *)
Definition Library : Type := Trace -> Call -> Reply.

(** What a buffer holds after the library wrote [bytes] through its
    pointer: the buffer keeps its length. *)
Definition written (buffer bytes : Uint8Array) : Uint8Array :=
  firstn (List.length buffer) (bytes ++ skipn (List.length bytes) buffer).

End Native.

(** Code that calls the library: an error monad over the trace of native
    calls.  The trace is kept when an exception is thrown. *)
Definition FFI (A : Type) : Type := Native.Trace -> result A * Native.Trace.

Definition ret {A : Type} (a : A) : FFI A := fun tr => (Ok a, tr).

Definition throw {A : Type} (e : Exception) : FFI A := fun tr => (Throw e, tr).

Definition lift {A : Type} (m : result A) : FFI A := fun tr => (m, tr).

Definition ffi_bind {A B : Type} (m : FFI A) (k : A -> FFI B) : FFI B :=
  fun tr =>
    match m tr with
    | (Ok a, tr') => k a tr'
    | (Throw e, tr') => (Throw e, tr')
    end.

Definition call (lib : Native.Library) (c : Native.Call) : FFI Native.Reply :=
  fun tr => (Ok (lib tr c), tr ++ [c]).

Declare Scope ffi_scope.
Delimit Scope ffi_scope with ffi.
Notation "x <- m ;; k" := (ffi_bind m (fun x => k))
  (at level 61, m at next level, right associativity) : ffi_scope.

(** The constants imported from [../pcsc/pcsc.ts] and
    [../pcsc/reader-state.ts], which are not part of the sources at hand:
    the code is modelled for any value of them. *)
Record Platform : Type := mkPlatform {
  isWin : bool;
  DWORD_SIZE : Z;
  SCARDREADERSTATE_SIZE : Z;
  SCARD_ERROR_TIMEOUT : Z
}.

(** The abstract class [SCARDREADERSTATE] of [../pcsc/reader-state.ts],
    likewise absent: what [SCardGetStatusChange] uses of a reader state is
    its marshalled [buffer] and its method [handleChange], which updates
    the state from a record and tells whether it changed. *)
Class SCARDREADERSTATE (State : Type) : Type := {
  buffer : State -> Uint8Array;
  handleChange : State -> Uint8Array -> result (bool * State)
}.

(** [FFIReader] of [./reader.ts]: [FFICard] reads its [status] only. *)
Record FFIReader : Type := mkFFIReader {
  status : string
}.

(** ** src/deno-pcsc-ffi/pcsc-ffi.ts *)

Module FFI.

Local Open Scope ffi_scope.

Section Wrapper.

Variable platform : Platform.
Variable pcsc_symbols : Native.Library.

Definition HANDLE_SIZE : Z := if isWin platform then 8 else 4.

(** [typeof rc == "number"] holds for every status code: the library
    returns a [u32]. *)
Definition ensureSCardSuccess (rc : Z) (func : string) : result unit :=
  if negb (rc =? 0) then Throw (PCSCException rc func) else Ok tt.

Definition SCardTransmit (hCard : Z) (sendBuffer : Uint8Array) (recvLength : Z)
  : FFI Uint8Array :=
  pioSendPci <- lift (new_Uint8Array 8) ;;
  pioSendPci <- lift (setUint32 pioSendPci 0 1 true) ;;
  pioSendPci <- lift (setUint32 pioSendPci 4 8 true) ;;
  pioRecvPci <- lift (new_Uint8Array 8) ;;
  pioRecvPci <- lift (set pioRecvPci pioSendPci 0) ;;
  recvBuffer <- lift (new_Uint8Array (recvLength + 2)) ;;
  length <- lift (new_Uint8Array (DWORD_SIZE platform)) ;;
  length <- lift (setUint32 length 0 (size recvBuffer) (isWin platform)) ;;
  reply <- call pcsc_symbols
             (Native.SCardTransmit hCard pioSendPci sendBuffer (size sendBuffer)
                                   pioRecvPci recvBuffer length) ;;
  let recvBuffer := Native.written recvBuffer (Native.out1 reply) in
  let length := Native.written length (Native.out2 reply) in
  _ <- lift (ensureSCardSuccess (Native.rc reply) "SCardTransmit") ;;
  recvLength <- lift (getUint32 length 0 true) ;;
  ret (slice recvBuffer 0 recvLength).

Definition SCardControl (hCard ioctl : Z) (dataIn dataOut : Uint8Array)
  : FFI (Z * Uint8Array) :=
  outLen <- lift (new_Uint8Array (DWORD_SIZE platform)) ;;
  outLen <- lift (setUint32 outLen (size dataOut) 0 true) ;;
  reply <- call pcsc_symbols
             (Native.SCardControl hCard ioctl dataIn (size dataIn)
                                  dataOut (size dataOut) outLen) ;;
  let dataOut := Native.written dataOut (Native.out1 reply) in
  let outLen := Native.written outLen (Native.out2 reply) in
  _ <- lift (ensureSCardSuccess (Native.rc reply) "SCardControl") ;;
  n <- lift (getUint32 outLen 0 true) ;;
  ret (n, dataOut).

Section ReaderStates.

Context {State : Type} `{SCARDREADERSTATE State}.

(** [states.forEach((state, index) => stateBuffer.set(state.buffer,
    index * SCARDREADERSTATE_SIZE))] *)
Fixpoint forEach_set (states : list State) (index : Z)
         (stateBuffer : Uint8Array) : result Uint8Array :=
  match states with
  | [] => Ok stateBuffer
  | state :: rest =>
      (stateBuffer <- set stateBuffer (buffer state)
                        (index * SCARDREADERSTATE_SIZE platform) ;;
       forEach_set rest (index + 1) stateBuffer)%result
  end.

(** The second [forEach]: every state is updated in place by
    [handleChange]; the result is the array of states after the
    updates and the states pushed to [changed]. *)
Fixpoint forEach_handleChange (states : list State) (index : Z)
         (stateBuffer : Uint8Array) : result (list State * list State) :=
  match states with
  | [] => Ok ([], [])
  | state :: rest =>
      ('(isChanged, state) <-
         handleChange state
           (slice stateBuffer (index * SCARDREADERSTATE_SIZE platform)
                  (SCARDREADERSTATE_SIZE platform)) ;;
       '(rest, changed) <- forEach_handleChange rest (index + 1) stateBuffer ;;
       Ok (state :: rest,
           if isChanged : bool then state :: changed else changed))%result
  end.

(** The buffer handed to the native call. *)
Definition marshal (states : list State) : result Uint8Array :=
  (stateBuffer <- new_Uint8Array (SCARDREADERSTATE_SIZE platform * size states) ;;
   forEach_set states 0 stateBuffer)%result.

(** Returns the caller's [states] as the call leaves them, and the
    returned array. *)
Definition SCardGetStatusChange (hContext timeout : Z) (states : list State)
  : FFI (list State * list State) :=
  stateBuffer <- lift (marshal states) ;;
  reply <- call pcsc_symbols
             (Native.SCardGetStatusChange hContext timeout stateBuffer
                                          (size states)) ;;
  let stateBuffer := Native.written stateBuffer (Native.out1 reply) in
  let res := Native.rc reply in
  if res =? SCARD_ERROR_TIMEOUT platform then ret (states, [])
  else
    _ <- lift (ensureSCardSuccess res "SCardGetStatusChange") ;;
    lift (forEach_handleChange states 0 stateBuffer).

End ReaderStates.

(** *** class FFICard *)

Record FFICard : Type := mkFFICard {
  reader : FFIReader;
  handle : Z;
  protocol : Z
}.

Definition isConnected (card : FFICard) : bool :=
  negb (String.eqb (status (reader card)) "connected").

Definition transmit (card : FFICard) (command : Uint8Array)
           (expectedLen : option Z) : FFI Uint8Array :=
  if handle card =? 0 then throw (SmartCardException "SmartCard disconected")
  else
    SCardTransmit (handle card) command
                  (2 + match expectedLen with Some n => n | None => 256 end).

Definition transmitAPDU (card : FFICard) (commandAPDU : CommandAPDU.t)
  : FFI ResponseAPDU.t :=
  commandBytes <- lift (CommandAPDU.toBytes commandAPDU (Some (protocol card))) ;;
  response <- SCardTransmit (handle card) commandBytes
                (2 + match CommandAPDU.le commandAPDU with Some n => n | None => 0 end) ;;
  lift (ResponseAPDU.new (Some response) None).

End Wrapper.

End FFI.

(** ** Inputs to run the model on *)

(** Values for the absent constants: 4-byte double words and, to keep the
    examples short, 4-byte reader-state records; the time-out code is the
    one of the PC/SC standard. *)
Definition sample_platform : Platform :=
  {| isWin := false;
     DWORD_SIZE := 4;
     SCARDREADERSTATE_SIZE := 4;
     SCARD_ERROR_TIMEOUT := 0x8010000A |}.

(** A library that reports success and writes [bytes] to the first output
    buffer of every call. *)
Definition succeed_writing (bytes : Uint8Array) : Native.Library :=
  fun _ _ => {| Native.rc := 0; Native.out1 := bytes; Native.out2 := [] |}.

(** A library whose every call times out. *)
Definition time_out : Native.Library :=
  fun _ _ => {| Native.rc := 0x8010000A; Native.out1 := []; Native.out2 := [] |}.

Fixpoint same_bytes (a b : Uint8Array) : bool :=
  match a, b with
  | [], [] => true
  | x :: a, y :: b => Byte.eqb x y && same_bytes a b
  | _, _ => false
  end.

(** Modelled from the spec: the reader-state class of
    [../pcsc/reader-state.ts] is absent and the specification fixes no
    record layout, so the whole record stands for the event bitmask: a
    state is the record it holds, [handleChange] stores the record it is
    given and reports whether it differs from the previous one. *)
#[export] Instance RawRecord : SCARDREADERSTATE Uint8Array := {|
  buffer := fun state => state;
  handleChange := fun state record => Ok (negb (same_bytes record state), record)
|}.

(** The protocol control information [SCardTransmit] builds: protocol
    identifier 1 and length 8, both little endian. *)
Definition PCI : Uint8Array := [x01; x00; x00; x00; x08; x00; x00; x00].

Definition SELECT : Uint8Array := [x00; xa4; x04; x00].

Definition sample_card : FFI.FFICard :=
  FFI.mkFFICard (mkFFIReader "connected") 1 1.

Definition disconnected_card : FFI.FFICard :=
  FFI.mkFFICard (mkFFIReader "connected") 0 0.

Definition two_readers : list Uint8Array :=
  [[x00; x00; x00; x00]; [x00; x00; x00; x00]].

(** Both records rewritten by the library. *)
Definition both_changed : Uint8Array :=
  [x01; x01; x01; x01; x02; x02; x02; x02].

Definition select_with_empty_data : CommandAPDU.t :=
  CommandAPDU.mk 0 164 4 0 (Some []) None false EmptyString.

Definition select_with_data : CommandAPDU.t :=
  CommandAPDU.mk 0 164 4 0 (Some [xa0; x00; x00]) (Some 16) false EmptyString.

(** ** The other entry points of [pcsc.symbols] *)

Module Symbols.

(** The calls of the context and card life cycle, recorded like those of
    [Native]. *)
Inductive Call : Type :=
| SCardEstablishContext (scope reserved1 reserved2 : Z) (ctx : Uint8Array)
| SCardReconnect (hCard shareMode preferredProtocols initialization : Z)
                 (protocol : Uint8Array)
| SCardDisconnect (hCard disposition : Z)
| SCardGetAttrib (hCard attrID : Z) (attrib attribAgain : option Uint8Array)
                 (bufLen : Uint8Array).

(** The status code and what the library wrote to the buffers of the call,
    in the order of the arguments. *)
Record Reply : Type := mkReply {
  rc : Z;
  outs : list Uint8Array
}.

Definition out (n : nat) (reply : Reply) : Uint8Array := nth n (outs reply) [].

Definition Trace : Type := list Call.

Definition Library : Type := Trace -> Call -> Reply.

End Symbols.

(** The error monad over the trace of these calls. *)
Definition Sys (A : Type) : Type := Symbols.Trace -> result A * Symbols.Trace.

Definition sys_ret {A : Type} (a : A) : Sys A := fun tr => (Ok a, tr).

Definition sys_lift {A : Type} (m : result A) : Sys A := fun tr => (m, tr).

Definition sys_bind {A B : Type} (m : Sys A) (k : A -> Sys B) : Sys B :=
  fun tr =>
    match m tr with
    | (Ok a, tr') => k a tr'
    | (Throw e, tr') => (Throw e, tr')
    end.

Definition invoke (lib : Symbols.Library) (c : Symbols.Call) : Sys Symbols.Reply :=
  fun tr => (Ok (lib tr c), tr ++ [c]).

Declare Scope sys_scope.
Delimit Scope sys_scope with sys.
Notation "x <- m ;; k" := (sys_bind m (fun x => k))
  (at level 61, m at next level, right associativity) : sys_scope.

(** The default arguments of [FFICard], members of enumerations of
    [../pcsc/pcsc.ts]. *)
Record Defaults : Type := mkDefaults {
  ShareMode_Shared : Z;
  Protocol_Any : Z;
  Disposition_LeaveCard : Z
}.

(** [ReaderStatus] of [../pcsc/context.ts] is a string. *)
Definition ReaderStatus : Type := string.

Module Session.

Local Open Scope sys_scope.

Section Wrapper.

Variable platform : Platform.
Variable pcsc_symbols : Symbols.Library.
Variable defaults : Defaults.

(** [FFIReader.waitForChange] of [./reader.ts], absent: any computation
    that may call the library. *)
Variable waitForChange : FFIReader -> Sys ReaderStatus.

Definition SCardEstablishContext (scope : Z) : Sys Z :=
  ctx <- sys_lift (new_Uint8Array (FFI.HANDLE_SIZE platform)) ;;
  reply <- invoke pcsc_symbols (Symbols.SCardEstablishContext scope 0 0 ctx) ;;
  let ctx := Native.written ctx (Symbols.out 0 reply) in
  _ <- sys_lift (FFI.ensureSCardSuccess (Symbols.rc reply) "SCardEstablishContext") ;;
  sys_lift (if isWin platform then getBigUint64 ctx 0 true
            else getUint32 ctx 0 true).

Definition SCardReconnect (hCard shareMode preferredProtocols initialization : Z)
  : Sys Z :=
  protocol <- sys_lift (new_Uint8Array (DWORD_SIZE platform)) ;;
  reply <- invoke pcsc_symbols
             (Symbols.SCardReconnect hCard shareMode preferredProtocols
                                     initialization protocol) ;;
  let protocol := Native.written protocol (Symbols.out 0 reply) in
  _ <- sys_lift (FFI.ensureSCardSuccess (Symbols.rc reply) "SCardReconnect") ;;
  sys_lift (getUint32 protocol 0 true).

Definition SCardDisconnect (hCard disposition : Z) : Sys unit :=
  reply <- invoke pcsc_symbols (Symbols.SCardDisconnect hCard disposition) ;;
  sys_lift (FFI.ensureSCardSuccess (Symbols.rc reply) "SCardDisconnect").

(** [attrib] is [null] when the length is probed. *)
Definition SCardGetAttrib (hCard attrID : Z) (attrib : option Uint8Array) : Sys Z :=
  bufLen <- sys_lift (new_Uint8Array (DWORD_SIZE platform)) ;;
  bufLen <- sys_lift (match attrib with
                      | Some a => setUint32 bufLen (size a) 0 true
                      | None => Ok bufLen
                      end) ;;
  reply <- invoke pcsc_symbols
             (Symbols.SCardGetAttrib hCard attrID attrib attrib bufLen) ;;
  let bufLen := Native.written bufLen (Symbols.out 1 reply) in
  _ <- sys_lift (FFI.ensureSCardSuccess (Symbols.rc reply) "SCardGetAttrib") ;;
  sys_lift (getUint32 bufLen 0 true).

(** *** class FFICard, continued

    The methods that assign the private fields: they return the outcome
    together with the card as the call leaves it, also when they throw. *)

Definition reconnect (card : FFI.FFICard)
           (shareMode preferredProtocols initialization : option Z)
  : Symbols.Trace -> result ReaderStatus * FFI.FFICard * Symbols.Trace :=
  fun tr =>
    let shareMode :=
      match shareMode with Some m => m | None => ShareMode_Shared defaults end in
    let preferredProtocols :=
      match preferredProtocols with Some p => p | None => Protocol_Any defaults end in
    let initialization :=
      match initialization with
      | Some d => d
      | None => Disposition_LeaveCard defaults
      end in
    if FFI.handle card =? 0
    then (Throw (SmartCardException "SmartCard disconected"), card, tr)
    else
      match SCardReconnect (FFI.handle card) shareMode preferredProtocols
                           initialization tr with
      | (Throw e, tr) => (Throw e, card, tr)
      | (Ok protocol, tr) =>
          let card := FFI.mkFFICard (FFI.reader card) (FFI.handle card) protocol in
          let '(status, tr) := waitForChange (FFI.reader card) tr in
          (status, card, tr)
      end.

(** [try { SCardDisconnect } finally { protocol = 0; handle = 0 }], then
    [reader.waitForChange()]. *)
Definition disconnect (card : FFI.FFICard) (disposition : option Z)
  : Symbols.Trace -> result ReaderStatus * FFI.FFICard * Symbols.Trace :=
  fun tr =>
    let disposition :=
      match disposition with
      | Some d => d
      | None => Disposition_LeaveCard defaults
      end in
    if negb (FFI.handle card =? 0)
    then
      let '(outcome, tr) := SCardDisconnect (FFI.handle card) disposition tr in
      let card := FFI.mkFFICard (FFI.reader card) 0 0 in
      match outcome with
      | Throw e => (Throw e, card, tr)
      | Ok _ =>
          let '(status, tr) := waitForChange (FFI.reader card) tr in
          (status, card, tr)
      end
    else
      let '(status, tr) := waitForChange (FFI.reader card) tr in
      (status, card, tr).

End Wrapper.

End Session.

(** More inputs to run the model on. *)

Definition select_with_le : Uint8Array := [x00; xa4; x04; x00; x02; x3f; x00; x10].

Definition select_expecting_2 : CommandAPDU.t :=
  CommandAPDU.mk 0 164 4 0 None (Some 2) false EmptyString.

(** A library that reports success, writes [bytes] to the first output
    buffer and the double word [count], little endian, to the second. *)
Definition respond (bytes : Uint8Array) (count : Z) : Native.Library :=
  fun _ _ => {| Native.rc := 0; Native.out1 := bytes;
                Native.out2 := bytes_le 4 count |}.

Definition sample_defaults : Defaults :=
  {| ShareMode_Shared := 2; Protocol_Any := 3; Disposition_LeaveCard := 0 |}.

(** A library that answers every call with the status [code], writing
    [bytes] to the first buffer of the call. *)
Definition answer (code : Z) (bytes : Uint8Array) : Symbols.Library :=
  fun _ _ => {| Symbols.rc := code; Symbols.outs := [bytes] |}.

(** A reader whose [waitForChange] reports its status without calling the
    library. *)
Definition report_status : FFIReader -> Sys ReaderStatus :=
  fun reader => sys_ret (status reader).

(** * Properties *)

Import CommandAPDU.

(** ** Facts about the JavaScript layer *)

Lemma num_range (b : byte) : 0 <= num b < 256.
Proof.
  unfold num. pose proof (Byte.to_N_bounded b). lia.
Qed.

Lemma u8_num (b : byte) : u8 (num b) = b.
Proof.
  unfold u8. rewrite Z.mod_small by apply num_range.
  unfold num. rewrite N2Z.id, Byte.of_to_N. reflexivity.
Qed.

Lemma num_u8 (z : Z) : num (u8 z) = z mod 256.
Proof.
  unfold u8, num.
  destruct (Byte.of_N (Z.to_N (z mod 256))) as [b|] eqn:E.
  - apply Byte.to_of_N in E. rewrite E.
    rewrite Z2N.id; [reflexivity | apply Z.mod_pos_bound; lia].
  - exfalso.
    pose proof (Byte.to_of_N_option_map (Z.to_N (z mod 256))) as M.
    rewrite E in M. simpl in M.
    destruct (N.leb_spec (Z.to_N (z mod 256)) 255) as [L|L]; [discriminate|].
    pose proof (Z.mod_pos_bound z 256). lia.
Qed.

Lemma num_u8_small (z : Z) : 0 <= z < 256 -> num (u8 z) = z.
Proof.
  intros R. rewrite num_u8. apply Z.mod_small. exact R.
Qed.

Lemma size_nonneg {A : Type} (a : list A) : 0 <= size a.
Proof. unfold size. lia. Qed.

Lemma size_app {A : Type} (a b : list A) : size (a ++ b) = size a + size b.
Proof. unfold size. rewrite length_app. lia. Qed.

Lemma size_cons {A : Type} (x : A) (a : list A) : size (x :: a) = 1 + size a.
Proof. unfold size. simpl List.length. lia. Qed.

Lemma skipn_repeat {A : Type} (x : A) (n k : nat) :
  skipn k (repeat x n) = repeat x (n - k).
Proof.
  revert k. induction n as [|n IH]; intros [|k]; simpl; auto.
Qed.

Lemma new_Uint8Array_ok (n : Z) :
  0 <= n -> new_Uint8Array n = Ok (repeat x00 (Z.to_nat n)).
Proof.
  intros Hn. unfold new_Uint8Array.
  destruct (Z.ltb_spec n 0); [lia | reflexivity].
Qed.

(** Writing into the zero-filled tail of an array under construction. *)
Lemma set_fill (pre source : Uint8Array) (n : nat) (offset : Z) :
  offset = size pre ->
  (List.length source <= n)%nat ->
  set (pre ++ repeat x00 n) source offset
  = Ok ((pre ++ source) ++ repeat x00 (n - List.length source)).
Proof.
  intros -> Hle. unfold set.
  rewrite size_app. unfold size at 3. rewrite repeat_length.
  pose proof (size_nonneg pre) as Hp.
  destruct (Z.ltb_spec (size pre) 0) as [?|_]; [lia|].
  destruct (Z.ltb_spec (size pre + Z.of_nat n) (size pre + size source)) as [L|_].
  { unfold size in L. lia. }
  simpl. f_equal. unfold size.
  rewrite Nat2Z.id, <- Nat2Z.inj_add, Nat2Z.id.
  rewrite firstn_app, Nat.sub_diag, firstn_all. simpl. rewrite app_nil_r.
  rewrite skipn_app, skipn_all2 by lia. simpl.
  replace (List.length pre + List.length source - List.length pre)%nat
    with (List.length source) by lia.
  rewrite skipn_repeat, <- app_assoc. reflexivity.
Qed.

Lemma relative_index_nonneg (n i : Z) :
  0 <= i -> relative_index n i = Z.min i n.
Proof.
  intros Hi. unfold relative_index.
  destruct (Z.ltb_spec i 0); [lia | reflexivity].
Qed.

Lemma slice_prefix {A : Type} (a : list A) (n : Z) :
  0 <= n -> slice a 0 n = firstn (Z.to_nat n) a.
Proof.
  intros Hn. unfold slice.
  pose proof (size_nonneg a) as Ha.
  rewrite !relative_index_nonneg by lia.
  rewrite (Z.min_l 0) by lia. rewrite Z.sub_0_r. simpl.
  destruct (Z.min_spec n (size a)) as [[L ->]|[L ->]]; [reflexivity|].
  unfold size in *. rewrite Nat2Z.id, firstn_all.
  symmetry. apply firstn_all2. lia.
Qed.

Lemma slice_app_prefix {A : Type} (a b : list A) :
  slice (a ++ b) 0 (size a) = a.
Proof.
  rewrite slice_prefix by apply size_nonneg.
  unfold size. rewrite Nat2Z.id, firstn_app, Nat.sub_diag, firstn_all.
  simpl. apply app_nil_r.
Qed.

Lemma u8_mod (z : Z) : u8 (z mod 256) = u8 z.
Proof. unfold u8. rewrite Z.mod_mod by lia. reflexivity. Qed.

Lemma ToInt32_small (z : Z) : -2147483648 <= z < 2147483648 -> ToInt32 z = z.
Proof.
  intros R. unfold ToInt32.
  change (2 ^ 31) with 2147483648. change (2 ^ 32) with 4294967296.
  rewrite Z.mod_small by lia. lia.
Qed.

Lemma band_255 (z : Z) : -2147483648 <= z < 2147483648 -> band z 255 = z mod 256.
Proof.
  intros R. unfold band. rewrite ToInt32_small by exact R.
  rewrite (ToInt32_small 255) by lia.
  change 255 with (Z.ones 8). rewrite Z.land_ones by lia. reflexivity.
Qed.

Lemma sar_small (z n : Z) : -2147483648 <= z < 2147483648 -> 0 <= n -> sar z n = z / 2 ^ n.
Proof.
  intros R Hn. unfold sar. rewrite ToInt32_small by exact R.
  apply Z.shiftr_div_pow2. exact Hn.
Qed.

Lemma store_at (pre post : Uint8Array) (old : byte) (index value : Z) :
  index = size pre ->
  store (pre ++ old :: post) index value = pre ++ u8 value :: post.
Proof.
  intros ->. unfold store. rewrite size_app, size_cons.
  pose proof (size_nonneg pre). pose proof (size_nonneg post).
  destruct (Z.ltb_spec (size pre) 0); [lia|].
  destruct (Z.leb_spec (size pre + (1 + size post)) (size pre)); [lia|].
  simpl orb. cbv iota. unfold size.
  rewrite Nat2Z.id.
  replace (Z.to_nat (Z.of_nat (List.length pre) + 1)) with (List.length pre + 1)%nat by lia.
  rewrite firstn_app, Nat.sub_diag, firstn_all. simpl firstn. rewrite app_nil_r.
  rewrite skipn_app, skipn_all2 by lia.
  replace (List.length pre + 1 - List.length pre)%nat with 1%nat by lia.
  reflexivity.
Qed.

(** ** The APDU codec *)

Lemma length_field_length (ext : bool) (n : Z) :
  Z.of_nat (List.length (map u8 (length_field ext n))) = field_width ext.
Proof. destruct ext; reflexivity. Qed.

Ltac fill_step :=
  rewrite set_fill;
  [ cbn [bind]
  | repeat rewrite size_app; repeat rewrite size_cons; unfold size; simpl List.length;
    repeat rewrite length_map; lia
  | repeat rewrite length_app; simpl List.length; repeat rewrite length_map;
    unfold size in *; lia ].

(** [toBytes] in closed form: the header, the Lc field and the data when
    there is data, then the Le field (zero bytes stand in its place when
    the effective le is negative). *)
Lemma toBytes_eq (a : CommandAPDU.t) (protocol : option Z) :
  toBytes a protocol =
  Ok (header a
      ++ match data a with
         | Some (b :: d) =>
             map u8 (length_field (effective_extended a protocol) (Lc a)) ++ b :: d
         | _ => []
         end
      ++ (if 0 <? effective_le a protocol
          then map u8 (length_field (effective_extended a protocol)
                                    (effective_le a protocol))
          else if effective_le a protocol =? 0 then []
               else repeat x00 (Z.to_nat (field_width (effective_extended a protocol))))).
Proof.
  unfold toBytes.
  fold (effective_extended a protocol). fold (effective_le a protocol).
  generalize (effective_extended a protocol) as ext.
  generalize (effective_le a protocol) as l.
  intros l ext.
  unfold Lc, header, set_numbers.
  destruct ext; unfold field_width, length_field;
  (destruct (data a) as [[|b d]|]; cbv beta iota;
    [ change (size (@nil byte)) with 0; rewrite Z.eqb_refl, Z.ltb_irrefl
    | pose proof (size_nonneg d) as Hd; rewrite size_cons;
      destruct (Z.eqb_spec (1 + size d) 0) as [?|_]; [lia|];
      destruct (Z.ltb_spec 0 (1 + size d)) as [_|?]; [|lia]
    | rewrite Z.eqb_refl, Z.ltb_irrefl ]);
    (destruct (Z.ltb_spec 0 l) as [Hl|Hl];
     [ destruct (Z.eqb_spec l 0) as [?|_]; [lia|]
     | destruct (Z.eqb_spec l 0) as [?|Hn] ]);
    rewrite new_Uint8Array_ok by lia; cbn [bind];
    change (repeat x00 ?n) with ([] ++ repeat x00 n);
    repeat fill_step.
  all: f_equal; rewrite <- ?app_assoc, ?app_nil_l, ?app_nil_r.
  all: repeat (apply (f_equal2 (@app byte)); [reflexivity|]).
  all: match goal with
       | |- ?x ++ repeat _ ?n = ?x => replace n with 0%nat; [apply app_nil_r|]
       | |- repeat _ _ = repeat _ _ => f_equal
       end;
       repeat rewrite length_app; simpl List.length; repeat rewrite length_map;
       unfold size in *; simpl List.length; lia.
Qed.

(** Decoding a short-form command: header, then Lc and data when there is
    data, then at most one trailing byte. *)
Lemma from_short (c i q1 q2 : byte) (d t : Uint8Array) (options : option string) :
  (List.length t <= 1)%nat ->
  size d <= 255 ->
  from (c :: i :: q1 :: q2 ::
          match d with [] => [] | _ :: _ => u8 (size d) :: d end ++ t) options
  = Ok (CommandAPDU.new (num c) (num i) (num q1) (num q2)
          match d with [] => None | _ :: _ => Some d end
          match t with [] => None | x :: _ => Some (num x) end
          false options).
Proof.
  intros Ht Hd. unfold from, toUint8Array.
  rewrite !size_cons.
  set (rest := match d with [] => [] | _ :: _ => u8 (size d) :: d end ++ t).
  pose proof (size_nonneg rest) as Hr.
  destruct (Z.ltb_spec (1 + (1 + (1 + (1 + size rest)))) 4) as [?|_]; [lia|].
  subst rest. destruct d as [|b d].
  - simpl app.
    destruct t as [|x [|y t]]; [| |simpl in Ht; lia].
    + reflexivity.
    + reflexivity.
  - pose proof (size_nonneg (b :: d)) as H0.
    assert (Hlc : num (u8 (size (b :: d))) = size (b :: d))
      by (apply num_u8_small; lia).
    rewrite <- app_comm_cons. set (lc := u8 (size (b :: d))) in *.
    rewrite size_cons, size_app.
    pose proof (size_nonneg t) as H1.
    assert (H2 : 1 <= size (b :: d)) by (rewrite size_cons; pose proof (size_nonneg d); lia).
    destruct (Z.ltb_spec 1 (1 + (size (b :: d) + size t))) as [_|?]; [|lia].
    rewrite Hlc, slice_app_prefix.
    destruct t as [|x [|y t]]; [| |simpl in Ht; lia].
    + change (size (@nil byte)) with 0.
      destruct (Z.ltb_spec (4 + (1 + size (b :: d)))
                           (1 + (1 + (1 + (1 + (1 + (size (b :: d) + 0))))))) as [?|_]; [lia|].
      destruct (Z.eqb_spec (1 + (1 + (1 + (1 + (1 + (size (b :: d) + 0))))))
                           (4 + (1 + size (b :: d)))) as [_|?]; [|lia].
      reflexivity.
    + change (size [x]) with 1.
      destruct (Z.ltb_spec (4 + (1 + size (b :: d)))
                           (1 + (1 + (1 + (1 + (1 + (size (b :: d) + 1))))))) as [_|?]; [|lia].
      destruct (Z.eqb_spec (1 + (1 + (1 + (1 + (1 + (size (b :: d) + 1))))))
                           (4 + (1 + size (b :: d)) + 1)) as [_|?]; [|lia].
      simpl negb. cbv iota. do 2 f_equal.
      replace (Z.to_nat (4 + (1 + size (b :: d))))
        with (5 + List.length (b :: d))%nat by (unfold size; lia).
      change (c :: i :: q1 :: q2 :: lc :: (b :: d) ++ [x])
        with ([c; i; q1; q2; lc] ++ (b :: d) ++ [x]).
      rewrite app_nth2 by (simpl; lia).
      rewrite app_nth2 by (simpl; lia).
      replace (5 + List.length (b :: d) - List.length [c; i; q1; q2; lc]
               - List.length (b :: d))%nat with 0%nat by (simpl; lia).
      reflexivity.
Qed.

(** C3 (as amended).  For every CommandAPDU whose cla, ins, p1 and p2 are
    single bytes, whose data has at most 255 bytes and whose isExtended is
    false, [from (toBytes {protocol: 1})] succeeds and reproduces cla, ins,
    p1 and p2, and reproduces data when it is absent or not empty; data
    that is present but empty is decoded as absent.  No bound on le is
    needed. *)
Theorem CommandAPDU_from_toBytes_T1 (a : CommandAPDU.t) :
  0 <= cla a < 256 -> 0 <= ins a < 256 -> 0 <= p1 a < 256 -> 0 <= p2 a < 256 ->
  Lc a <= 255 ->
  isExtended a = false ->
  exists bytes a',
    toBytes a (Some 1) = Ok bytes /\
    from bytes None = Ok a' /\
    cla a' = cla a /\ ins a' = ins a /\ p1 a' = p1 a /\ p2 a' = p2 a /\
    data a' = match data a with Some [] => None | present => present end.
Proof.
  intros Hcla Hins Hp1 Hp2 Hlc Hext.
  rewrite toBytes_eq.
  assert (E : effective_extended a (Some 1) = false)
    by (unfold effective_extended; rewrite Hext; reflexivity).
  rewrite E. clear E.
  generalize (effective_le a (Some 1)) as l. intros l.
  set (t := if 0 <? l then map u8 (length_field false l)
            else if l =? 0 then [] else repeat x00 (Z.to_nat (field_width false))).
  assert (Ht : (List.length t <= 1)%nat).
  { subst t. destruct (0 <? l); [simpl; lia|]. destruct (l =? 0); simpl; lia. }
  set (d := match data a with Some d => d | None => [] end).
  assert (Hd : size d <= 255).
  { subst d. unfold Lc in Hlc. destruct (data a); [exact Hlc | unfold size; simpl; lia]. }
  pose proof (from_short (u8 (cla a)) (u8 (ins a)) (u8 (p1 a)) (u8 (p2 a))
                         d t None Ht Hd) as F.
  assert (B : header a
               ++ match data a with
                  | Some (b :: d0) => map u8 (length_field false (Lc a)) ++ b :: d0
                  | _ => []
                  end ++ t
              = u8 (cla a) :: u8 (ins a) :: u8 (p1 a) :: u8 (p2 a)
                  :: match d with [] => [] | _ :: _ => u8 (size d) :: d end ++ t).
  { subst d. unfold header, Lc. destruct (data a) as [[|b d0]|]; reflexivity. }
  rewrite B. eexists. eexists.
  split; [reflexivity|]. split; [exact F|].
  unfold CommandAPDU.new, toUint8Array. cbn [cla ins p1 p2 data].
  rewrite !num_u8_small by assumption.
  repeat split.
  subst d. destruct (data a) as [[|b d0]|]; reflexivity.
Qed.

Lemma CommandAPDU_from_toBytes_T1_witness :
  exists bytes a',
    toBytes select_with_data (Some 1) = Ok bytes /\
    from bytes None = Ok a' /\
    cla a' = cla select_with_data /\ ins a' = ins select_with_data /\
    p1 a' = p1 select_with_data /\ p2 a' = p2 select_with_data /\
    data a' = match data select_with_data with
              | Some [] => None
              | present => present
              end.
Proof.
  apply (CommandAPDU_from_toBytes_T1 select_with_data);
    try (simpl; lia); try reflexivity.
  unfold Lc, size. simpl. lia.
Defined.

(** C3 as stated fails on a command whose data is present and empty: it is
    encoded as the bare header, which decodes to a command without data. *)
Lemma CommandAPDU_from_toBytes_T1_empty_data :
  ~ exists bytes a',
      toBytes select_with_empty_data (Some 1) = Ok bytes /\
      from bytes None = Ok a' /\
      data a' = data select_with_empty_data.
Proof.
  intros (bytes & a' & E & F & D).
  vm_compute in E. injection E as <-.
  vm_compute in F. injection F as <-.
  discriminate D.
Qed.

(** C4.  For every byte sequence [data] and 16-bit status word [sw],
    [toBytes] of the ResponseAPDU succeeds with [data] followed by the high
    and the low byte of [sw], and the constructor applied to these bytes
    gives a ResponseAPDU with the same data and the same SW. *)
Theorem ResponseAPDU_roundtrip (data : Uint8Array) (sw : Z) (description : string) :
  0 <= sw < 65536 ->
  ResponseAPDU.toBytes (ResponseAPDU.mk sw data description)
  = Ok (data ++ [u8 (sw / 256); u8 (sw mod 256)]) /\
  exists r,
    ResponseAPDU.new (Some (data ++ [u8 (sw / 256); u8 (sw mod 256)])) None = Ok r /\
    ResponseAPDU.data r = data /\ ResponseAPDU.SW r = sw.
Proof.
  intros Hsw.
  assert (Hhi : 0 <= sw / 256 < 256).
  { split; [apply Z.div_pos; lia | apply Z.div_lt_upper_bound; lia]. }
  pose proof (Z.mod_pos_bound sw 256 ltac:(lia)) as Hlo.
  pose proof (size_nonneg data) as Hd.
  split.
  - unfold ResponseAPDU.toBytes, ResponseAPDU.La. cbn [ResponseAPDU.data ResponseAPDU.SW].
    rewrite new_Uint8Array_ok by lia. cbn [bind].
    change (repeat x00 ?n) with ([] ++ repeat x00 n).
    rewrite set_fill; [| reflexivity | unfold size; lia].
    cbn [bind]. rewrite app_nil_l.
    replace (Z.to_nat (size data + 2) - List.length data)%nat with 2%nat
      by (unfold size; lia).
    simpl repeat.
    rewrite store_at by reflexivity.
    change (data ++ ?h :: [x00]) with (data ++ [h] ++ [x00]).
    rewrite app_assoc, store_at by (rewrite size_app; reflexivity).
    rewrite <- app_assoc. simpl app.
    assert (R : -2147483648 <= sw < 2147483648) by (clear - Hsw; lia).
    rewrite (sar_small sw 8 R), (sar_small sw 0 R) by lia.
    change (2 ^ 8) with 256. change (2 ^ 0) with 1. rewrite Z.div_1_r.
    rewrite !band_255 by lia.
    rewrite (u8_mod (sw / 256)). reflexivity.
  - unfold ResponseAPDU.new, toUint8Array.
    rewrite size_app. change (size [_; _]) with 2.
    destruct (Z.ltb_spec (size data + 2) 2) as [?|_]; [lia|].
    replace (size data + 2 - 2) with (size data) by lia.
    unfold getUint16, getUint.
    rewrite size_app. change (size [_; _]) with 2. change (Z.of_nat 2) with 2.
    destruct (Z.ltb_spec (size data) 0) as [?|_]; [lia|].
    destruct (Z.ltb_spec (size data + 2) (size data + 2)) as [?|_]; [lia|].
    simpl orb. cbv iota. cbn [bind].
    eexists. split; [reflexivity|]. cbn [ResponseAPDU.data ResponseAPDU.SW]. split.
    + apply slice_app_prefix.
    + unfold size. rewrite Nat2Z.id, skipn_app, skipn_all, Nat.sub_diag.
      cbn [skipn firstn ordered rev app number_le]. rewrite !num_u8_small by lia.
      pose proof (Z.div_mod sw 256 ltac:(lia)). lia.
Qed.

Lemma ResponseAPDU_roundtrip_witness :
  ResponseAPDU.toBytes (ResponseAPDU.mk 0x9000 [x01; x02] EmptyString)
  = Ok ([x01; x02] ++ [u8 (0x9000 / 256); u8 (0x9000 mod 256)]) /\
  exists r,
    ResponseAPDU.new (Some ([x01; x02] ++ [u8 (0x9000 / 256); u8 (0x9000 mod 256)]))
                     None = Ok r /\
    ResponseAPDU.data r = [x01; x02] /\ ResponseAPDU.SW r = 0x9000.
Proof.
  apply (ResponseAPDU_roundtrip [x01; x02] 0x9000 EmptyString). lia.
Defined.

(** C6.  Under protocol T=0 the encoding is the header followed, when there
    is data, by a one-byte Lc and the data and nothing else, and otherwise
    by the Le field alone (one byte, or nothing when le is unset or 0):
    the length fields are never the three-byte extended ones, whatever
    isExtended says, and no Le field follows data. *)
Theorem CommandAPDU_toBytes_T0 (a : CommandAPDU.t) :
  toBytes a (Some 0)
  = Ok (header a
        ++ match data a with
           | Some (b :: d) => u8 (Lc a) :: b :: d
           | _ => match le a with
                  | Some l => if 0 <? l then [u8 l]
                              else if l =? 0 then [] else [x00]
                  | None => []
                  end
           end)
  /\ toBytes a (Some 0)
     = toBytes (CommandAPDU.mk (cla a) (ins a) (p1 a) (p2 a) (data a) (le a)
                              false (description a)) (Some 0).
Proof.
  assert (E : forall c : CommandAPDU.t,
             toBytes c (Some 0)
             = Ok (header c
                   ++ match data c with
                      | Some (b :: d) => u8 (Lc c) :: b :: d
                      | _ => match le c with
                             | Some l => if 0 <? l then [u8 l]
                                         else if l =? 0 then [] else [x00]
                             | None => []
                             end
                      end)).
  { intros c. rewrite toBytes_eq. unfold effective_extended, effective_le.
    change (0 =? 0) with true. cbn [negb]. rewrite andb_false_r, orb_false_r.
    unfold Lc. destruct (data c) as [[|b d]|].
    - change (size (@nil byte) =? 0) with true. cbv iota.
      destruct (le c) as [l|]; [|reflexivity].
      destruct (0 <? l); [reflexivity|]. destruct (l =? 0); reflexivity.
    - rewrite size_cons. pose proof (size_nonneg d).
      destruct (Z.eqb_spec (1 + size d) 0) as [?|_]; [lia|].
      change (0 <? 0) with false. change (0 =? 0) with true. cbv iota.
      rewrite app_nil_r. reflexivity.
    - change (0 =? 0) with true. cbv iota.
      destruct (le c) as [l|]; [|reflexivity].
      destruct (0 <? l); [reflexivity|]. destruct (l =? 0); reflexivity. }
  split; [apply E|]. rewrite !E. reflexivity.
Qed.

(** C8.  [ResponseAPDU.init] never returns: whatever SW and data it is
    given, the constructor it calls without argument throws the
    SmartCardException of the too short buffer. *)
Theorem ResponseAPDU_init_throws (SW : option Z) (data : option Uint8Array) :
  ResponseAPDU.init SW data = Throw (SmartCardException "ResponseAPDU Buffer invalid").
Proof. reflexivity. Qed.

(** ** The FFI wrapper *)

Lemma lift_bind {A B : Type} (m : result A) (k : A -> FFI B) (tr : Native.Trace) :
  ffi_bind (lift m) k tr
  = match m with Ok a => k a tr | Throw e => (Throw e, tr) end.
Proof. unfold ffi_bind, lift. destruct m; reflexivity. Qed.

Lemma call_bind {B : Type} (lib : Native.Library) (c : Native.Call)
      (k : Native.Reply -> FFI B) (tr : Native.Trace) :
  ffi_bind (call lib c) k tr = k (lib tr c) (tr ++ [c]).
Proof. reflexivity. Qed.

Lemma written_length (buffer bytes : Uint8Array) :
  List.length (Native.written buffer bytes) = List.length buffer.
Proof.
  unfold Native.written. rewrite length_firstn, length_app, length_skipn. lia.
Qed.

Lemma size_repeat (n : Z) : 0 <= n -> size (repeat x00 (Z.to_nat n)) = n.
Proof. intros Hn. unfold size. rewrite repeat_length. lia. Qed.

Lemma set_length (target source : Uint8Array) (offset : Z) (r : Uint8Array) :
  set target source offset = Ok r -> List.length r = List.length target.
Proof.
  unfold set. pose proof (size_nonneg source) as Hs.
  destruct (Z.ltb_spec offset 0); [discriminate|].
  destruct (Z.ltb_spec (size target) (offset + size source)); [discriminate|].
  simpl. intros [= <-]. unfold size in *.
  rewrite !length_app, length_firstn, length_skipn. lia.
Qed.

Lemma setUint_ok (width : nat) (view : Uint8Array) (byteOffset value : Z) (e : bool) :
  0 <= byteOffset -> byteOffset + Z.of_nat width <= size view ->
  exists r, setUint width view byteOffset value e = Ok r
            /\ List.length r = List.length view.
Proof.
  intros H0 H1. unfold setUint.
  destruct (Z.ltb_spec byteOffset 0); [lia|].
  destruct (Z.ltb_spec (size view) (byteOffset + Z.of_nat width)); [lia|].
  simpl orb. cbv iota.
  assert (L : size (ordered e (bytes_le width value)) = Z.of_nat width).
  { unfold size, ordered, bytes_le.
    destruct e; rewrite ?length_rev, length_map, length_seq; reflexivity. }
  destruct (set view (ordered e (bytes_le width value)) byteOffset) as [r|x] eqn:E.
  - exists r. split; [reflexivity|]. eapply set_length. exact E.
  - exfalso. unfold set in E. rewrite L in E.
    destruct (Z.ltb_spec byteOffset 0); [lia|].
    destruct (Z.ltb_spec (size view) (byteOffset + Z.of_nat width)); [lia|].
    discriminate E.
Qed.

Lemma setUint_out_of_bounds (width : nat) (view : Uint8Array) (byteOffset value : Z)
      (e : bool) :
  size view < byteOffset + Z.of_nat width ->
  setUint width view byteOffset value e = Throw RangeError.
Proof.
  intros H. unfold setUint.
  destruct (Z.ltb_spec (size view) (byteOffset + Z.of_nat width)); [|lia].
  rewrite orb_true_r. reflexivity.
Qed.

Lemma number_le_nonneg (bytes : list byte) : 0 <= number_le bytes.
Proof.
  induction bytes as [|b bytes IH]; cbn [number_le]; [lia|].
  pose proof (num_range b). lia.
Qed.

Lemma getUint_ok (width : nat) (view : Uint8Array) (byteOffset : Z) (e : bool) :
  0 <= byteOffset -> byteOffset + Z.of_nat width <= size view ->
  exists n, getUint width view byteOffset e = Ok n /\ 0 <= n.
Proof.
  intros H0 H1. unfold getUint.
  destruct (Z.ltb_spec byteOffset 0); [lia|].
  destruct (Z.ltb_spec (size view) (byteOffset + Z.of_nat width)); [lia|].
  simpl orb. cbv iota. eexists. split; [reflexivity|]. apply number_le_nonneg.
Qed.

Lemma ensureSCardSuccess_spec (rc : Z) (func : string) :
  FFI.ensureSCardSuccess rc func
  = if rc =? 0 then Ok tt else Throw (PCSCException rc func).
Proof. unfold FFI.ensureSCardSuccess. destruct (rc =? 0); reflexivity. Qed.

(** What [SCardTransmit] does when its buffers can be allocated: one native
    call, then the status check and the truncation. *)
Lemma SCardTransmit_run (platform : Platform) (lib : Native.Library)
      (hCard : Z) (sendBuffer : Uint8Array) (recvLength : Z) (tr : Native.Trace) :
  0 <= recvLength + 2 ->
  4 <= DWORD_SIZE platform ->
  exists length_ reported,
    let recvBuffer := repeat x00 (Z.to_nat (recvLength + 2)) in
    let c := Native.SCardTransmit hCard PCI sendBuffer (size sendBuffer)
                                  PCI recvBuffer length_ in
    let reply := lib tr c in
    size length_ = DWORD_SIZE platform /\
    getUint32 (Native.written length_ (Native.out2 reply)) 0 true = Ok reported /\
    0 <= reported /\
    FFI.SCardTransmit platform lib hCard sendBuffer recvLength tr
    = (if Native.rc reply =? 0
       then Ok (firstn (Z.to_nat reported)
                       (Native.written recvBuffer (Native.out1 reply)))
       else Throw (PCSCException (Native.rc reply) "SCardTransmit"),
       tr ++ [c]).
Proof.
  intros Hr Hd.
  destruct (setUint_ok 4 (repeat x00 (Z.to_nat (DWORD_SIZE platform))) 0
                       (size (repeat x00 (Z.to_nat (recvLength + 2))))
                       (isWin platform)) as (length_ & E & L).
  { lia. } { rewrite size_repeat by lia. simpl. lia. }
  rewrite repeat_length in L.
  exists length_.
  set (recvBuffer := repeat x00 (Z.to_nat (recvLength + 2))) in *.
  set (c := Native.SCardTransmit hCard PCI sendBuffer (size sendBuffer)
                                 PCI recvBuffer length_).
  destruct (getUint_ok 4 (Native.written length_ (Native.out2 (lib tr c))) 0 true)
    as (reported & G & P).
  { lia. } { unfold size. rewrite written_length, L. simpl. lia. }
  exists reported. cbv zeta.
  split; [unfold size; lia|]. split; [exact G|]. split; [exact P|].
  unfold FFI.SCardTransmit.
  rewrite lift_bind. change (new_Uint8Array 8) with (Ok (repeat x00 8)). cbv iota beta.
  rewrite lift_bind.
  change (setUint32 (repeat x00 8) 0 1 true) with (Ok [x01; x00; x00; x00; x00; x00; x00; x00]).
  cbv iota beta. rewrite lift_bind.
  change (setUint32 [x01; x00; x00; x00; x00; x00; x00; x00] 4 8 true) with (Ok PCI).
  cbv iota beta. rewrite lift_bind. change (new_Uint8Array 8) with (Ok (repeat x00 8)).
  cbv iota beta. rewrite lift_bind.
  change (set (repeat x00 8) PCI 0) with (Ok PCI).
  cbv iota beta. rewrite lift_bind, new_Uint8Array_ok by lia.
  cbv iota beta. rewrite lift_bind, new_Uint8Array_ok by lia.
  cbv iota beta. rewrite lift_bind. fold recvBuffer. unfold setUint32. rewrite E.
  cbv iota beta. rewrite call_bind. fold c.
  rewrite lift_bind, ensureSCardSuccess_spec.
  destruct (Native.rc (lib tr c) =? 0); [|reflexivity].
  rewrite lift_bind. unfold getUint32. rewrite G.
  unfold ret. rewrite slice_prefix by exact P. reflexivity.
Qed.

(** C2 (as amended).  On a connected card (handle not 0), with a
    non-negative expected length and double words of at least 4 bytes,
    [transmit] issues one native transmit call whose receive buffer is
    [expectedLen + 4] bytes long ([transmit] adds 2, [SCardTransmit] adds 2
    again); on status 0 it returns that buffer, as the library left it,
    truncated to the length the library reported, and on any other status
    it throws the PCSCException of that status. *)
Theorem transmit_receive_buffer (platform : Platform) (lib : Native.Library)
        (card : FFI.FFICard) (command : Uint8Array) (expectedLen : Z)
        (tr : Native.Trace) :
  FFI.handle card <> 0 ->
  0 <= expectedLen ->
  4 <= DWORD_SIZE platform ->
  exists length_ reported,
    let recvBuffer := repeat x00 (Z.to_nat (expectedLen + 4)) in
    let c := Native.SCardTransmit (FFI.handle card) PCI command (size command)
                                  PCI recvBuffer length_ in
    let reply := lib tr c in
    size recvBuffer = expectedLen + 4 /\
    getUint32 (Native.written length_ (Native.out2 reply)) 0 true = Ok reported /\
    FFI.transmit platform lib card command (Some expectedLen) tr
    = (if Native.rc reply =? 0
       then Ok (firstn (Z.to_nat reported)
                       (Native.written recvBuffer (Native.out1 reply)))
       else Throw (PCSCException (Native.rc reply) "SCardTransmit"),
       tr ++ [c]).
Proof.
  intros Hh He Hd.
  destruct (SCardTransmit_run platform lib (FFI.handle card) command
                              (2 + expectedLen) tr)
    as (length_ & reported & _ & G & _ & R); [lia | exact Hd |].
  cbv zeta in G, R.
  replace (2 + expectedLen + 2) with (expectedLen + 4) in G, R by lia.
  exists length_, reported. cbv zeta.
  split; [apply size_repeat; lia|]. split; [exact G|].
  unfold FFI.transmit.
  destruct (Z.eqb_spec (FFI.handle card) 0) as [?|_]; [contradiction|].
  exact R.
Qed.

Lemma transmit_receive_buffer_witness :
  exists length_ reported,
    let recvBuffer := repeat x00 (Z.to_nat (0 + 4)) in
    let c := Native.SCardTransmit (FFI.handle sample_card) PCI SELECT (size SELECT)
                                  PCI recvBuffer length_ in
    let reply := succeed_writing [x90; x00] [] c in
    size recvBuffer = 0 + 4 /\
    getUint32 (Native.written length_ (Native.out2 reply)) 0 true = Ok reported /\
    FFI.transmit sample_platform (succeed_writing [x90; x00]) sample_card SELECT
                 (Some 0) []
    = (if Native.rc reply =? 0
       then Ok (firstn (Z.to_nat reported)
                       (Native.written recvBuffer (Native.out1 reply)))
       else Throw (PCSCException (Native.rc reply) "SCardTransmit"),
       [] ++ [c]).
Proof.
  apply (transmit_receive_buffer sample_platform (succeed_writing [x90; x00])
                                 sample_card SELECT 0 []).
  - discriminate.
  - lia.
  - simpl. lia.
Defined.

(** C2 as stated fails: with an expected length of 0 the receive buffer of
    the native call has 4 bytes, not 2. *)
Lemma transmit_receive_buffer_is_not_expected_plus_2 :
  snd (FFI.transmit sample_platform (succeed_writing [x90; x00]) sample_card SELECT
                    (Some 0) [])
  = [Native.SCardTransmit 1 PCI SELECT 4 PCI [x00; x00; x00; x00]
                          [x00; x00; x00; x04]]
  /\ size [x00; x00; x00; x00] <> 0 + 2.
Proof. split; [vm_compute; reflexivity | discriminate]. Qed.

(** C7.  On a card whose handle is 0, [transmit] throws a
    SmartCardException for every command and expected length, and the
    trace of native calls is unchanged. *)
Theorem transmit_disconnected (platform : Platform) (lib : Native.Library)
        (card : FFI.FFICard) (command : Uint8Array) (expectedLen : option Z)
        (tr : Native.Trace) :
  FFI.handle card = 0 ->
  FFI.transmit platform lib card command expectedLen tr
  = (Throw (SmartCardException "SmartCard disconected"), tr).
Proof.
  intros H. unfold FFI.transmit. rewrite H. reflexivity.
Qed.

Lemma transmit_disconnected_witness :
  FFI.transmit sample_platform (succeed_writing []) disconnected_card SELECT
               (Some 2) []
  = (Throw (SmartCardException "SmartCard disconected"), []).
Proof.
  apply (transmit_disconnected sample_platform (succeed_writing [])
                               disconnected_card SELECT (Some 2) []).
  reflexivity.
Defined.

(** C9.  [isConnected] is true exactly when the status of the owning
    reader is not the string connected; it does not depend on the handle
    nor on the protocol of the card, and it is false for a reader whose
    status is connected. *)
Theorem isConnected_reader_status (reader : FFIReader) (handle protocol : Z) :
  (FFI.isConnected (FFI.mkFFICard reader handle protocol) = true
   <-> status reader <> "connected"%string)
  /\ FFI.isConnected (FFI.mkFFICard reader handle protocol)
     = FFI.isConnected (FFI.mkFFICard reader 0 0)
  /\ FFI.isConnected (FFI.mkFFICard (mkFFIReader "connected") handle protocol) = false.
Proof.
  split; [|split; reflexivity].
  unfold FFI.isConnected. cbn [FFI.reader].
  destruct (String.eqb_spec (status reader) "connected") as [E|E]; simpl.
  - split; [discriminate | intros N; contradiction].
  - split; [intros _; exact E | reflexivity].
Qed.

(** C10.  With 4-byte double words, [SCardControl] on a [dataOut] of at
    least one byte throws a RangeError and issues no native call (the write
    of the output length uses the length of [dataOut] as its offset);
    with an empty [dataOut] the native control call is issued. *)
Theorem SCardControl_dataOut_offset (platform : Platform) (lib : Native.Library)
        (hCard ioctl : Z) (dataIn dataOut : Uint8Array) (tr : Native.Trace) :
  DWORD_SIZE platform = 4 ->
  (1 <= size dataOut ->
   FFI.SCardControl platform lib hCard ioctl dataIn dataOut tr
   = (Throw RangeError, tr))
  /\ (size dataOut = 0 ->
      snd (FFI.SCardControl platform lib hCard ioctl dataIn dataOut tr)
      = tr ++ [Native.SCardControl hCard ioctl dataIn (size dataIn) dataOut 0
                                   [x00; x00; x00; x00]]).
Proof.
  intros D. unfold FFI.SCardControl. rewrite D.
  rewrite lift_bind. change (new_Uint8Array 4) with (Ok (repeat x00 4)).
  cbv iota beta. rewrite lift_bind. split.
  - intros L. unfold setUint32.
    rewrite setUint_out_of_bounds; [reflexivity|].
    change (size (repeat x00 4)) with 4. simpl Z.of_nat. lia.
  - intros L. rewrite L.
    change (setUint32 (repeat x00 4) 0 0 true) with (Ok [x00; x00; x00; x00]).
    cbv iota beta. rewrite call_bind.
    set (c := Native.SCardControl _ _ _ _ _ _ _).
    rewrite lift_bind.
    destruct (FFI.ensureSCardSuccess (Native.rc (lib tr c)) "SCardControl");
      [|reflexivity].
    rewrite lift_bind.
    destruct (getUint32 _ 0 true); reflexivity.
Qed.

Lemma SCardControl_dataOut_offset_witness :
  FFI.SCardControl sample_platform (succeed_writing []) 1 0 [] [x00; x00] []
  = (Throw RangeError, [])
  /\ snd (FFI.SCardControl sample_platform (succeed_writing []) 1 0 [] [] [])
     = [Native.SCardControl 1 0 [] 0 [] 0 [x00; x00; x00; x00]].
Proof.
  split.
  - apply (proj1 (SCardControl_dataOut_offset sample_platform (succeed_writing [])
                                              1 0 [] [x00; x00] [] eq_refl)).
    unfold size. simpl. lia.
  - apply (proj2 (SCardControl_dataOut_offset sample_platform (succeed_writing [])
                                              1 0 [] [] [] eq_refl)).
    reflexivity.
Defined.

Lemma slice_after_first_record {A : Type} (a : list A) (recordSize index : Z) :
  0 <= recordSize -> 1 <= index ->
  slice a (index * recordSize) recordSize = [].
Proof.
  intros Hs Hi. unfold slice.
  rewrite !relative_index_nonneg by nia.
  replace (Z.to_nat (Z.min recordSize (size a) - Z.min (index * recordSize) (size a)))
    with 0%nat by nia.
  reflexivity.
Qed.

Section ReaderStateFacts.

Context {State : Type} `{SCARDREADERSTATE State}.
Variable platform : Platform.

Lemma forEach_handleChange_after_first (states : list State) (index : Z)
      (stateBuffer : Uint8Array) :
  0 <= SCARDREADERSTATE_SIZE platform -> 1 <= index ->
  FFI.forEach_handleChange platform states index stateBuffer
  = FFI.forEach_handleChange platform states index [].
Proof.
  intros Hs. revert index.
  induction states as [|state rest IH]; intros index Hi; [reflexivity|].
  cbn [FFI.forEach_handleChange].
  rewrite !slice_after_first_record by assumption.
  rewrite IH by lia. reflexivity.
Qed.

Lemma marshal_record_size (state : State) (rest : list State)
      (stateBuffer : Uint8Array) :
  FFI.marshal platform (state :: rest) = Ok stateBuffer ->
  0 <= SCARDREADERSTATE_SIZE platform.
Proof.
  unfold FFI.marshal, new_Uint8Array. rewrite size_cons.
  pose proof (size_nonneg rest).
  destruct (Z.ltb_spec (SCARDREADERSTATE_SIZE platform * (1 + size rest)) 0);
    [discriminate | intros _; nia].
Qed.

End ReaderStateFacts.

(** C1 (what the code does).  After a successful native call over the
    states [first :: others], only [first] is updated from its own record
    of the buffer the library wrote: [slice(index * SIZE, SIZE)] is empty
    for every index from 1 on, so every later state is handed an empty
    record, whatever the library reported for it. *)
Theorem SCardGetStatusChange_unmarshals_first_record_only
        (platform : Platform) (lib : Native.Library)
        {State : Type} `{SCARDREADERSTATE State}
        (hContext timeout : Z) (first : State) (others : list State)
        (stateBuffer : Uint8Array) (tr : Native.Trace) :
  FFI.marshal platform (first :: others) = Ok stateBuffer ->
  let c := Native.SCardGetStatusChange hContext timeout stateBuffer
                                       (size (first :: others)) in
  let updated := Native.written stateBuffer (Native.out1 (lib tr c)) in
  Native.rc (lib tr c) = 0 ->
  SCARD_ERROR_TIMEOUT platform <> 0 ->
  FFI.SCardGetStatusChange platform lib hContext timeout (first :: others) tr
  = (('(isChanged, first') <-
        handleChange first
          (firstn (Z.to_nat (SCARDREADERSTATE_SIZE platform)) updated) ;;
      '(others', changed) <- FFI.forEach_handleChange platform others 1 [] ;;
      Ok (first' :: others',
          if isChanged : bool then first' :: changed else changed)),
     tr ++ [c])
  /\ forall index, 1 <= index ->
       slice updated (index * SCARDREADERSTATE_SIZE platform)
             (SCARDREADERSTATE_SIZE platform) = [].
Proof.
  intros M c updated R T.
  pose proof (marshal_record_size platform first others stateBuffer M) as Hs.
  split.
  - unfold FFI.SCardGetStatusChange.
    rewrite lift_bind, M. cbv iota beta. rewrite call_bind. fold c.
    rewrite R.
    destruct (Z.eqb_spec 0 (SCARD_ERROR_TIMEOUT platform)) as [E|_];
      [symmetry in E; contradiction|].
    rewrite lift_bind. cbn [FFI.ensureSCardSuccess Z.eqb negb].
    unfold lift. f_equal. fold updated.
    cbn [FFI.forEach_handleChange].
    rewrite Z.mul_0_l, slice_prefix by exact Hs.
    replace (0 + 1) with 1 by reflexivity.
    rewrite forEach_handleChange_after_first by (assumption || lia).
    reflexivity.
  - intros index Hi. apply slice_after_first_record; assumption.
Qed.

Lemma SCardGetStatusChange_unmarshals_first_record_only_witness :
  FFI.SCardGetStatusChange sample_platform (succeed_writing both_changed) 1 0
                           two_readers []
  = (Ok ([[x01; x01; x01; x01]; []], [[x01; x01; x01; x01]; []]),
     [Native.SCardGetStatusChange 1 0 [x00; x00; x00; x00; x00; x00; x00; x00] 2])
  /\ slice both_changed 4 4 = [].
Proof.
  destruct (SCardGetStatusChange_unmarshals_first_record_only
              sample_platform (succeed_writing both_changed) 1 0
              [x00; x00; x00; x00] [[x00; x00; x00; x00]]
              [x00; x00; x00; x00; x00; x00; x00; x00] [])
    as [E S].
  - reflexivity.
  - reflexivity.
  - discriminate.
  - split.
    + exact E.
    + exact (S 1 ltac:(lia)).
Defined.

(** C5 (as amended).  [SCardGetStatusChange] issues the native call exactly
    once.  When the status is the time-out code it returns an empty array
    and leaves the states as they are; for every other status that is not
    0 it throws the PCSCException carrying the status and the name
    SCardGetStatusChange; so among the statuses other than 0 the empty
    result without an exception comes with the time-out code and only with
    it.  (A status of 0 may give an empty array too.) *)
Theorem SCardGetStatusChange_status_codes
        (platform : Platform) (lib : Native.Library)
        {State : Type} `{SCARDREADERSTATE State}
        (hContext timeout : Z) (states : list State)
        (stateBuffer : Uint8Array) (tr : Native.Trace) :
  FFI.marshal platform states = Ok stateBuffer ->
  let c := Native.SCardGetStatusChange hContext timeout stateBuffer (size states) in
  let res := Native.rc (lib tr c) in
  let run := FFI.SCardGetStatusChange platform lib hContext timeout states tr in
  snd run = tr ++ [c]
  /\ (res = SCARD_ERROR_TIMEOUT platform -> fst run = Ok (states, []))
  /\ (res <> SCARD_ERROR_TIMEOUT platform -> res <> 0 ->
      fst run = Throw (PCSCException res "SCardGetStatusChange"))
  /\ (res <> 0 ->
      ((exists left, fst run = Ok (left, [])) <-> res = SCARD_ERROR_TIMEOUT platform)).
Proof.
  intros M c res run. subst run.
  unfold FFI.SCardGetStatusChange.
  rewrite lift_bind, M. cbv iota beta. rewrite call_bind. fold c. fold res.
  destruct (Z.eqb_spec res (SCARD_ERROR_TIMEOUT platform)) as [E|E].
  - split; [reflexivity|]. split; [reflexivity|].
    split; [intros N; contradiction|].
    intros _. split; [intros _; exact E | intros _; exists states; reflexivity].
  - rewrite lift_bind, ensureSCardSuccess_spec.
    destruct (Z.eqb_spec res 0) as [Z0|Z0].
    + split; [reflexivity|]. split; [intros N; contradiction|].
      split; [intros _ N | intros N]; contradiction.
    + split; [reflexivity|]. split; [intros N; contradiction|].
      split; [reflexivity|].
      intros _. split; [intros [left N]; discriminate N | intros N; contradiction].
Qed.

Lemma SCardGetStatusChange_status_codes_witness :
  let c := Native.SCardGetStatusChange 1 0 [x00; x00; x00; x00; x00; x00; x00; x00]
                                       (size two_readers) in
  let res := Native.rc (time_out [] c) in
  let run := FFI.SCardGetStatusChange sample_platform time_out 1 0 two_readers [] in
  snd run = [] ++ [c]
  /\ (res = SCARD_ERROR_TIMEOUT sample_platform -> fst run = Ok (two_readers, []))
  /\ (res <> SCARD_ERROR_TIMEOUT sample_platform -> res <> 0 ->
      fst run = Throw (PCSCException res "SCardGetStatusChange"))
  /\ (res <> 0 ->
      ((exists left, fst run = Ok (left, []))
       <-> res = SCARD_ERROR_TIMEOUT sample_platform)).
Proof.
  apply (SCardGetStatusChange_status_codes sample_platform time_out 1 0 two_readers
           [x00; x00; x00; x00; x00; x00; x00; x00] []).
  reflexivity.
Defined.

(** C5 as stated fails: with no watched reader and a status of 0, which is
    not the time-out code, the call returns an empty array without
    throwing. *)
Lemma SCardGetStatusChange_empty_result_on_success :
  FFI.SCardGetStatusChange sample_platform (succeed_writing []) 1 0
                           (@nil Uint8Array) []
  = (Ok ([], []), [Native.SCardGetStatusChange 1 0 [] 0])
  /\ Native.rc (succeed_writing [] [] (Native.SCardGetStatusChange 1 0 [] 0))
     <> SCARD_ERROR_TIMEOUT sample_platform.
Proof. split; [reflexivity | discriminate]. Qed.

(** * Further properties of the code *)

(** ** More of the APDU codec *)

Lemma size_map {A B : Type} (f : A -> B) (a : list A) : size (map f a) = size a.
Proof. unfold size. rewrite length_map. reflexivity. Qed.

Lemma size_length_field (ext : bool) (n : Z) :
  size (map u8 (length_field ext n)) = field_width ext.
Proof. destruct ext; reflexivity. Qed.

(** X1.  [CommandAPDU.toBytes] never throws: for every command and
    protocol it returns an array whose length is the [len] it computed,
    4 for the header, plus the Lc field and the data when there is data,
    plus the Le field when the effective le is not 0. *)
Theorem CommandAPDU_toBytes_length (a : CommandAPDU.t) (protocol : option Z) :
  exists bytes,
    toBytes a protocol = Ok bytes /\
    size bytes
    = 4
      + (if Lc a =? 0 then 0 else field_width (effective_extended a protocol))
      + Lc a
      + (if effective_le a protocol =? 0 then 0
         else field_width (effective_extended a protocol)).
Proof.
  rewrite toBytes_eq. eexists. split; [reflexivity|].
  rewrite !size_app. unfold header. rewrite size_map.
  change (size [cla a; ins a; p1 a; p2 a]) with 4.
  generalize (effective_extended a protocol) as ext.
  generalize (effective_le a protocol) as l. intros l ext.
  assert (L : size (if 0 <? l then map u8 (length_field ext l)
                    else if l =? 0 then []
                         else repeat x00 (Z.to_nat (field_width ext)))
              = if l =? 0 then 0 else field_width ext).
  { destruct (Z.ltb_spec 0 l).
    - destruct (Z.eqb_spec l 0); [lia|]. apply size_length_field.
    - destruct (Z.eqb_spec l 0); [reflexivity|].
      unfold size. rewrite repeat_length. destruct ext; reflexivity. }
  rewrite L. unfold Lc. destruct (data a) as [[|b d]|].
  - reflexivity.
  - rewrite size_app, size_length_field.
    pose proof (size_nonneg (b :: d)). rewrite size_cons in *.
    pose proof (size_nonneg d).
    destruct (Z.eqb_spec (1 + size d) 0); lia.
  - reflexivity.
Qed.

Lemma from_zero_Lc (c i q1 q2 : byte) (r : Uint8Array) (options : option string) :
  2 <= size r ->
  from (c :: i :: q1 :: q2 :: x00 :: r) options
  = Throw (SmartCardException "CommandAPDU: Invalid buffer").
Proof.
  intros Hr. unfold from, toUint8Array. rewrite !size_cons.
  destruct (Z.ltb_spec (1 + (1 + (1 + (1 + (1 + size r))))) 4) as [?|_]; [lia|].
  destruct (Z.ltb_spec 1 (1 + size r)) as [_|?]; [|lia].
  change (num x00) with 0.
  destruct (Z.ltb_spec (4 + (1 + 0)) (1 + (1 + (1 + (1 + (1 + size r)))))) as [_|?];
    [|lia].
  destruct (Z.eqb_spec (1 + (1 + (1 + (1 + (1 + size r))))) (4 + (1 + 0) + 1))
    as [?|_]; [lia|].
  reflexivity.
Qed.

(** X2.  What [toBytes] encodes with extended length fields (isExtended
    set, protocol other than T=0) is not decoded by [from]: as soon as the
    command has data or an effective le other than 0, [from] throws its
    SmartCardException. *)
Theorem CommandAPDU_extended_not_decoded (a : CommandAPDU.t) (protocol : option Z)
        (options : option string) :
  effective_extended a protocol = true ->
  0 < Lc a \/ effective_le a protocol <> 0 ->
  exists bytes,
    toBytes a protocol = Ok bytes /\
    from bytes options = Throw (SmartCardException "CommandAPDU: Invalid buffer").
Proof.
  intros E H. rewrite toBytes_eq, E. eexists. split; [reflexivity|].
  unfold header. cbn [map app].
  generalize dependent (effective_le a protocol). intros l H.
  unfold Lc in H. destruct (data a) as [[|b d]|].
  - change (size (@nil byte)) with 0 in H. destruct H as [?|H]; [lia|].
    cbn [app]. destruct (Z.ltb_spec 0 l).
    + apply from_zero_Lc. reflexivity.
    + destruct (Z.eqb_spec l 0); [contradiction|].
      apply from_zero_Lc. reflexivity.
  - cbn [length_field map app]. change (u8 0) with x00.
    apply from_zero_Lc. unfold size. cbn [List.length]. lia.
  - destruct H as [?|H]; [lia|].
    cbn [app]. destruct (Z.ltb_spec 0 l).
    + apply from_zero_Lc. reflexivity.
    + destruct (Z.eqb_spec l 0); [contradiction|].
      apply from_zero_Lc. reflexivity.
Qed.

Lemma CommandAPDU_extended_not_decoded_witness :
  exists bytes,
    toBytes (CommandAPDU.mk 0 164 4 0 (Some [x3f; x00]) None true EmptyString)
            (Some 1) = Ok bytes /\
    from bytes None = Throw (SmartCardException "CommandAPDU: Invalid buffer").
Proof.
  apply (CommandAPDU_extended_not_decoded
           (CommandAPDU.mk 0 164 4 0 (Some [x3f; x00]) None true EmptyString)
           (Some 1) None).
  - reflexivity.
  - left. unfold Lc, size. simpl. lia.
Defined.

Lemma firstn_snoc_nth {A : Type} (r : list A) (n : nat) (d : A) :
  List.length r = S n -> r = firstn n r ++ [nth n r d].
Proof.
  revert n. induction r as [|x r IH]; intros n L; [discriminate|].
  destruct n as [|n]; simpl in *.
  - destruct r; [reflexivity | discriminate].
  - f_equal. apply IH. lia.
Qed.

Lemma Ok_inj {A : Type} (x y : A) : Ok x = Ok y -> x = y.
Proof. intros E. injection E as E. exact E. Qed.

(** What [from] accepts: the decoded fields are bytes and the input is
    their short-form layout. *)
Lemma from_layout (bytes : Uint8Array) (options : option string) (a : CommandAPDU.t) :
  from bytes options = Ok a ->
  bytes = header a
          ++ match data a with Some d => u8 (size d) :: d | None => [] end
          ++ match le a with Some l => [u8 l] | None => [] end
  /\ (0 <= cla a < 256 /\ 0 <= ins a < 256 /\ 0 <= p1 a < 256 /\ 0 <= p2 a < 256)
  /\ match data a with Some d => size d <= 255 | None => True end
  /\ match le a with Some l => 0 <= l < 256 | None => True end
  /\ isExtended a = false.
Proof.
  unfold from, toUint8Array.
  destruct bytes as [|c [|i [|q1 [|q2 rest]]]]; try discriminate.
  rewrite !size_cons. pose proof (size_nonneg rest) as Hr.
  destruct (Z.ltb_spec (1 + (1 + (1 + (1 + size rest)))) 4) as [?|_]; [lia|].
  pose proof (num_range c). pose proof (num_range i).
  pose proof (num_range q1). pose proof (num_range q2).
  destruct (Z.ltb_spec 1 (size rest)) as [Hlong|Hshort].
  - destruct rest as [|lc r]; [change (size (@nil byte)) with 0 in Hlong; lia|].
    rewrite size_cons in *. pose proof (num_range lc) as Hlc.
    pose proof (size_nonneg r) as Hr'.
    destruct (Z.ltb_spec (4 + (1 + num lc)) (1 + (1 + (1 + (1 + (1 + size r))))))
      as [Hle|Hle].
    + destruct (Z.eqb_spec (1 + (1 + (1 + (1 + (1 + size r)))))
                           (4 + (1 + num lc) + 1)) as [E|E]; [|discriminate].
      cbn [negb]. intros Heq. apply Ok_inj in Heq. subst a.
      unfold new, toUint8Array, header.
      cbn [cla ins p1 p2 data le isExtended option_map map app].
      rewrite !u8_num.
      assert (L : List.length r = S (Z.to_nat (num lc))) by (unfold size in E; lia).
      rewrite slice_prefix by lia.
      assert (S1 : size (firstn (Z.to_nat (num lc)) r) = num lc).
      { unfold size. rewrite length_firstn. lia. }
      rewrite S1, u8_num.
      change (c :: i :: q1 :: q2 :: lc :: r) with ([c; i; q1; q2; lc] ++ r).
      rewrite app_nth2 by (cbn [List.length]; lia).
      replace (Z.to_nat (4 + (1 + num lc)) - List.length [c; i; q1; q2; lc])%nat
        with (Z.to_nat (num lc)) by (cbn [List.length]; lia).
      split; [|repeat split; try lia; apply num_range].
      cbn [app]. do 5 f_equal.
      apply firstn_snoc_nth. exact L.
    + destruct (Z.eqb_spec (1 + (1 + (1 + (1 + (1 + size r)))))
                           (4 + (1 + num lc))) as [E|E]; [|discriminate].
      cbn [negb]. intros Heq. apply Ok_inj in Heq. subst a.
      unfold new, toUint8Array, header.
      cbn [cla ins p1 p2 data le isExtended option_map map app].
      rewrite !u8_num.
      rewrite slice_prefix by lia.
      rewrite firstn_all2 by (unfold size in E; lia).
      replace (size r) with (num lc) by lia. rewrite u8_num.
      split; [|repeat split; lia].
      rewrite app_nil_r. reflexivity.
  - destruct rest as [|x [|y rest]].
    + cbn. intros [= <-]. cbn. rewrite !u8_num. repeat split; lia.
    + cbn. intros [= <-]. cbn. rewrite !u8_num.
      pose proof (num_range x). repeat split; lia.
    + rewrite !size_cons in Hshort. pose proof (size_nonneg rest). lia.
Qed.

(** X3.  What [CommandAPDU.from] accepts: when it returns a command, the
    input is the header, then one byte of Lc and the data when the command
    has data, then one byte of Le when it has le; cla, ins, p1, p2 and le
    are bytes, the data has at most 255 bytes and isExtended is false. *)
Theorem CommandAPDU_from_sound (bytes : Uint8Array) (options : option string)
        (a : CommandAPDU.t) :
  from bytes options = Ok a ->
  bytes = header a
          ++ match data a with Some d => u8 (size d) :: d | None => [] end
          ++ match le a with Some l => [u8 l] | None => [] end
  /\ (0 <= cla a < 256 /\ 0 <= ins a < 256 /\ 0 <= p1 a < 256 /\ 0 <= p2 a < 256)
  /\ match data a with Some d => size d <= 255 | None => True end
  /\ match le a with Some l => 0 <= l < 256 | None => True end
  /\ isExtended a = false.
Proof. apply from_layout. Qed.

Lemma CommandAPDU_from_sound_witness :
  select_with_le
  = header (CommandAPDU.mk 0 164 4 0 (Some [x3f; x00]) (Some 16) false EmptyString)
    ++ [u8 (size [x3f; x00]); x3f; x00] ++ [u8 16]
  /\ (0 <= 0 < 256 /\ 0 <= 164 < 256 /\ 0 <= 4 < 256 /\ 0 <= 0 < 256)
  /\ size [x3f; x00] <= 255
  /\ 0 <= 16 < 256
  /\ false = false.
Proof.
  apply (CommandAPDU_from_sound select_with_le None
           (CommandAPDU.mk 0 164 4 0 (Some [x3f; x00]) (Some 16) false EmptyString)).
  reflexivity.
Defined.


(** X5.  Decoding then encoding: when [from] accepts bytes and the decoded
    command has neither an empty data field nor an le of 0, [toBytes]
    under T=1 (also the default protocol) gives the same bytes back. *)
Theorem CommandAPDU_toBytes_from (bytes : Uint8Array) (options : option string)
        (a : CommandAPDU.t) :
  from bytes options = Ok a ->
  data a <> Some [] ->
  le a <> Some 0 ->
  toBytes a (Some 1) = Ok bytes /\ toBytes a None = Ok bytes.
Proof.
  intros F Hd Hl.
  destruct (from_layout bytes options a F) as (B & _ & D & L & E).
  assert (G : forall protocol, protocol = Some 1 \/ protocol = None ->
                               toBytes a protocol = Ok bytes).
  { intros protocol P. rewrite toBytes_eq.
    assert (X : effective_extended a protocol = false)
      by (unfold effective_extended; rewrite E; reflexivity).
    assert (Y : effective_le a protocol = match le a with Some l => l | None => 0 end).
    { unfold effective_le. destruct P as [-> | ->]; cbn [negb Z.eqb];
        rewrite orb_true_r; reflexivity. }
    rewrite X, Y. rewrite B. apply (f_equal Ok). apply (f_equal (app (header a))).
    apply (f_equal2 (@app byte)).
    - unfold Lc. destruct (data a) as [[|b d]|]; [contradiction Hd|..]; reflexivity.
    - destruct (le a) as [l|]; [|reflexivity].
      destruct (Z.ltb_spec 0 l); [reflexivity|].
      exfalso. apply Hl. f_equal. lia. }
  split; apply G; [left | right]; reflexivity.
Qed.

Lemma CommandAPDU_toBytes_from_witness :
  toBytes (CommandAPDU.mk 0 164 4 0 (Some [x3f; x00]) (Some 16) false EmptyString)
          (Some 1) = Ok select_with_le
  /\ toBytes (CommandAPDU.mk 0 164 4 0 (Some [x3f; x00]) (Some 16) false EmptyString)
             None = Ok select_with_le.
Proof.
  apply (CommandAPDU_toBytes_from select_with_le None
           (CommandAPDU.mk 0 164 4 0 (Some [x3f; x00]) (Some 16) false EmptyString)).
  - reflexivity.
  - discriminate.
  - discriminate.
Defined.

(** ** More of ResponseAPDU *)

Lemma ResponseAPDU_toBytes_eq (r : ResponseAPDU.t) :
  ResponseAPDU.toBytes r
  = Ok (ResponseAPDU.data r
        ++ [u8 (band (sar (ResponseAPDU.SW r) 8) 255);
            u8 (band (sar (ResponseAPDU.SW r) 0) 255)]).
Proof.
  unfold ResponseAPDU.toBytes, ResponseAPDU.La.
  pose proof (size_nonneg (ResponseAPDU.data r)) as Hd.
  rewrite new_Uint8Array_ok by lia. cbn [bind].
  change (repeat x00 ?n) with ([] ++ repeat x00 n).
  rewrite set_fill; [| reflexivity | unfold size; lia].
  cbn [bind]. rewrite app_nil_l.
  replace (Z.to_nat (size (ResponseAPDU.data r) + 2)
           - List.length (ResponseAPDU.data r))%nat with 2%nat
    by (unfold size; lia).
  cbn [repeat].
  rewrite store_at by reflexivity.
  change (ResponseAPDU.data r ++ ?h :: [x00])
    with (ResponseAPDU.data r ++ [h] ++ [x00]).
  rewrite app_assoc, store_at by (rewrite size_app; reflexivity).
  rewrite <- app_assoc. reflexivity.
Qed.

Lemma status_word_bytes (sw : Z) :
  0 <= sw < 65536 ->
  u8 (band (sar sw 8) 255) = u8 (sw / 256)
  /\ u8 (band (sar sw 0) 255) = u8 (sw mod 256)
  /\ u8 (band sw 255) = u8 (sw mod 256)
  /\ sar sw 8 = sw / 256.
Proof.
  intros Hsw.
  assert (Hhi : 0 <= sw / 256 < 256).
  { split; [apply Z.div_pos; lia | apply Z.div_lt_upper_bound; lia]. }
  assert (R : -2147483648 <= sw < 2147483648) by lia.
  rewrite (sar_small sw 8 R), (sar_small sw 0 R) by lia.
  change (2 ^ 8) with 256. change (2 ^ 0) with 1. rewrite Z.div_1_r.
  rewrite !band_255 by lia. rewrite (u8_mod (sw / 256)).
  repeat split; reflexivity.
Qed.

Lemma ResponseAPDU_new_layout (d : Uint8Array) (hi lo : byte) (options : option string) :
  ResponseAPDU.new (Some (d ++ [hi; lo])) options
  = Ok {| ResponseAPDU.SW := num hi * 256 + num lo;
          ResponseAPDU.data := d;
          ResponseAPDU.description :=
            match options with Some text => text | None => EmptyString end |}.
Proof.
  unfold ResponseAPDU.new, toUint8Array.
  pose proof (size_nonneg d) as Hd.
  rewrite size_app. change (size [hi; lo]) with 2.
  destruct (Z.ltb_spec (size d + 2) 2) as [?|_]; [lia|].
  replace (size d + 2 - 2) with (size d) by lia.
  unfold getUint16, getUint.
  rewrite size_app. change (size [hi; lo]) with 2. change (Z.of_nat 2) with 2.
  destruct (Z.ltb_spec (size d) 0) as [?|_]; [lia|].
  destruct (Z.ltb_spec (size d + 2) (size d + 2)) as [?|_]; [lia|].
  cbn [orb bind]. rewrite slice_app_prefix.
  unfold size. rewrite Nat2Z.id, skipn_app, skipn_all, Nat.sub_diag.
  cbn [skipn firstn ordered rev app number_le].
  do 2 f_equal. lia.
Qed.

Lemma split_last_two (bytes : Uint8Array) :
  2 <= size bytes -> exists d hi lo, bytes = d ++ [hi; lo].
Proof.
  intros H.
  exists (firstn (List.length bytes - 2) bytes).
  pose proof (firstn_skipn (List.length bytes - 2) bytes) as S.
  assert (L : List.length (skipn (List.length bytes - 2) bytes) = 2%nat)
    by (rewrite length_skipn; unfold size in H; lia).
  destruct (skipn (List.length bytes - 2) bytes) as [|hi [|lo [|x t]]];
    try discriminate L.
  exists hi, lo. symmetry. exact S.
Qed.

Lemma ResponseAPDU_new_short (bytes : Uint8Array) (options : option string) :
  size bytes < 2 ->
  ResponseAPDU.new (Some bytes) options
  = Throw (SmartCardException "ResponseAPDU Buffer invalid").
Proof.
  intros L. unfold ResponseAPDU.new, toUint8Array.
  destruct (Z.ltb_spec (size bytes) 2); [reflexivity | lia].
Qed.

(** X6.  The ResponseAPDU constructor throws its SmartCardException exactly
    for inputs of fewer than 2 bytes. *)
Theorem ResponseAPDU_new_too_short (bytes : Uint8Array) (options : option string) :
  ResponseAPDU.new (Some bytes) options
  = Throw (SmartCardException "ResponseAPDU Buffer invalid")
  <-> size bytes < 2.
Proof.
  split.
  - intros T. destruct (Z.ltb_spec (size bytes) 2) as [L|L]; [exact L|].
    destruct (split_last_two bytes L) as (d & hi & lo & ->).
    rewrite ResponseAPDU_new_layout in T. discriminate T.
  - apply ResponseAPDU_new_short.
Qed.



(** X8.  [ResponseAPDU.from(SW, data)] succeeds for every 16-bit SW and
    gives a response with that SW and that data (whereas [init] always
    throws). *)
Theorem ResponseAPDU_from_roundtrip (sw : Z) (data : Uint8Array)
        (options : option string) :
  0 <= sw < 65536 ->
  ResponseAPDU.from sw data options
  = Ok {| ResponseAPDU.SW := sw;
          ResponseAPDU.data := data;
          ResponseAPDU.description :=
            match options with Some text => text | None => EmptyString end |}.
Proof.
  intros Hsw. unfold ResponseAPDU.from, toUint8Array, toUint8Array_numbers.
  rewrite map_app, map_map.
  rewrite (map_ext (fun b => u8 (num b)) (fun b => b)) by apply u8_num.
  rewrite map_id. cbn [map].
  destruct (status_word_bytes sw Hsw) as (_ & _ & B & S).
  rewrite B, S, ResponseAPDU_new_layout.
  assert (Hhi : 0 <= sw / 256 < 256).
  { split; [apply Z.div_pos; lia | apply Z.div_lt_upper_bound; lia]. }
  pose proof (Z.mod_pos_bound sw 256 ltac:(lia)).
  rewrite !num_u8_small by lia.
  do 2 f_equal. pose proof (Z.div_mod sw 256 ltac:(lia)). lia.
Qed.

Lemma ResponseAPDU_from_roundtrip_witness :
  ResponseAPDU.from 0x9000 [x01; x02] None
  = Ok {| ResponseAPDU.SW := 0x9000;
          ResponseAPDU.data := [x01; x02];
          ResponseAPDU.description := EmptyString |}.
Proof.
  apply (ResponseAPDU_from_roundtrip 0x9000 [x01; x02] None). lia.
Defined.

Lemma land_low_high (a k : Z) : 0 <= a < 256 -> Z.land a (k * 256) = 0.
Proof.
  intros Ha. apply Z.bits_inj'. intros n Hn.
  rewrite Z.land_spec, Z.bits_0. change 256 with (2 ^ 8).
  destruct (Z.lt_ge_cases n 8) as [L|L].
  - rewrite Z.mul_pow2_bits_low by exact L. apply andb_false_r.
  - rewrite <- (Z.mod_small a (2 ^ 8)) by (change (2 ^ 8) with 256; lia).
    rewrite Z.mod_pow2_bits_high by lia. reflexivity.
Qed.

Lemma lor_low_high (a k : Z) : 0 <= a < 256 -> Z.lor a (k * 256) = a + k * 256.
Proof.
  intros Ha. pose proof (land_low_high a k Ha) as D.
  rewrite <- Z.lxor_lor by exact D.
  symmetry. apply Z.add_nocarry_lxor. exact D.
Qed.

Lemma land_65280 (x : Z) : Z.land x 65280 = (x / 256) mod 256 * 256.
Proof.
  apply Z.bits_inj'. intros n Hn.
  rewrite Z.land_spec.
  change 65280 with (Z.shiftl (Z.ones 8) 8). change 256 with (2 ^ 8).
  destruct (Z.lt_ge_cases n 8) as [L|L].
  - rewrite Z.shiftl_spec_low, Z.mul_pow2_bits_low by exact L.
    apply andb_false_r.
  - rewrite Z.shiftl_spec by exact Hn.
    replace n with (8 + (n - 8)) at 3 by lia.
    rewrite Z.mul_pow2_bits_add by lia.
    destruct (Z.lt_ge_cases (n - 8) 8) as [M|M].
    + rewrite Z.ones_spec_low, Z.mod_pow2_bits_low by lia.
      rewrite Z.div_pow2_bits by lia.
      replace (n - 8 + 8) with n by lia. apply andb_true_r.
    + rewrite Z.ones_spec_high, Z.mod_pow2_bits_high by lia.
      apply andb_false_r.
Qed.

Lemma ToInt32_range (z : Z) : -2147483648 <= ToInt32 z < 2147483648.
Proof.
  unfold ToInt32. change (2 ^ 31) with 2147483648. change (2 ^ 32) with 4294967296.
  pose proof (Z.mod_pos_bound (z + 2147483648) 4294967296 ltac:(lia)). lia.
Qed.

Lemma band_255_any (z : Z) : band z 255 = ToInt32 z mod 256.
Proof.
  unfold band. rewrite (ToInt32_small 255) by lia.
  change 255 with (Z.ones 8). rewrite Z.land_ones by lia. reflexivity.
Qed.

Lemma band_65280_any (z : Z) : band z 65280 = (ToInt32 z / 256) mod 256 * 256.
Proof.
  unfold band. rewrite (ToInt32_small 65280) by lia. apply land_65280.
Qed.

Lemma shl_8_byte (s : Z) : 0 <= s < 256 -> shl s 8 = s * 256.
Proof.
  intros Hs. unfold shl. change (8 mod 32) with 8.
  rewrite (ToInt32_small s) by lia.
  rewrite Z.shiftl_mul_pow2 by lia. change (2 ^ 8) with 256.
  apply ToInt32_small. lia.
Qed.

Lemma bor_low_high (a k : Z) :
  0 <= a < 256 -> 0 <= k < 256 ->
  bor a (k * 256) = k * 256 + a /\ bor (k * 256) a = k * 256 + a.
Proof.
  intros Ha Hk. unfold bor.
  rewrite (ToInt32_small a), (ToInt32_small (k * 256)) by lia.
  rewrite (Z.lor_comm (k * 256) a), lor_low_high by exact Ha. lia.
Qed.

(** X9.  [setSW1] and [setSW2] with byte arguments: applied in either
    order they leave SW = SW1 * 256 + SW2 whatever SW was before, and the
    response then encodes as the data followed by SW1 and SW2. *)
Theorem ResponseAPDU_setSW1_setSW2 (r : ResponseAPDU.t) (SW1 SW2 : Z) :
  0 <= SW1 < 256 -> 0 <= SW2 < 256 ->
  ResponseAPDU.SW (ResponseAPDU.setSW2 (ResponseAPDU.setSW1 r SW1) SW2)
  = SW1 * 256 + SW2
  /\ ResponseAPDU.SW (ResponseAPDU.setSW1 (ResponseAPDU.setSW2 r SW2) SW1)
     = SW1 * 256 + SW2
  /\ ResponseAPDU.toBytes (ResponseAPDU.setSW2 (ResponseAPDU.setSW1 r SW1) SW2)
     = Ok (ResponseAPDU.data r ++ [u8 SW1; u8 SW2]).
Proof.
  intros H1 H2.
  assert (A : ResponseAPDU.SW (ResponseAPDU.setSW2 (ResponseAPDU.setSW1 r SW1) SW2)
              = SW1 * 256 + SW2).
  { cbn [ResponseAPDU.setSW1 ResponseAPDU.setSW2 ResponseAPDU.SW].
    rewrite shl_8_byte by exact H1. rewrite band_255_any.
    pose proof (Z.mod_pos_bound (ToInt32 (ResponseAPDU.SW r)) 256 ltac:(lia)) as Hlo.
    destruct (bor_low_high _ SW1 Hlo H1) as [-> _].
    rewrite band_65280_any.
    rewrite ToInt32_small by lia.
    replace ((SW1 * 256 + ToInt32 (ResponseAPDU.SW r) mod 256) / 256) with SW1
      by (apply Z.div_unique with (ToInt32 (ResponseAPDU.SW r) mod 256); lia).
    rewrite (Z.mod_small SW1) by lia.
    destruct (bor_low_high SW2 SW1 H2 H1) as [_ ->]. reflexivity. }
  split; [exact A|]. split.
  - cbn [ResponseAPDU.setSW1 ResponseAPDU.setSW2 ResponseAPDU.SW].
    rewrite shl_8_byte by exact H1. rewrite band_65280_any.
    set (k := (ToInt32 (ResponseAPDU.SW r) / 256) mod 256).
    assert (Hk : 0 <= k < 256) by (apply Z.mod_pos_bound; lia).
    destruct (bor_low_high SW2 k H2 Hk) as [_ ->].
    rewrite band_255_any, ToInt32_small by lia.
    replace ((k * 256 + SW2) mod 256) with SW2
      by (apply Z.mod_unique with k; lia).
    destruct (bor_low_high SW2 SW1 H2 H1) as [-> _]. reflexivity.
  - rewrite ResponseAPDU_toBytes_eq, A.
    cbn [ResponseAPDU.setSW1 ResponseAPDU.setSW2 ResponseAPDU.data].
    assert (Hsw : 0 <= SW1 * 256 + SW2 < 65536) by lia.
    destruct (status_word_bytes _ Hsw) as (-> & -> & _).
    replace ((SW1 * 256 + SW2) / 256) with SW1
      by (apply Z.div_unique with SW2; lia).
    rewrite (u8_mod (SW1 * 256 + SW2)).
    replace (u8 (SW1 * 256 + SW2)) with (u8 SW2); [reflexivity|].
    rewrite <- (u8_mod (SW1 * 256 + SW2)).
    f_equal. apply Z.mod_unique with SW1; lia.
Qed.

Lemma ResponseAPDU_setSW1_setSW2_witness :
  let r := {| ResponseAPDU.SW := 0x6A82; ResponseAPDU.data := [x01];
              ResponseAPDU.description := EmptyString |} in
  ResponseAPDU.SW (ResponseAPDU.setSW2 (ResponseAPDU.setSW1 r 0x90) 0)
  = 0x90 * 256 + 0
  /\ ResponseAPDU.SW (ResponseAPDU.setSW1 (ResponseAPDU.setSW2 r 0) 0x90)
     = 0x90 * 256 + 0
  /\ ResponseAPDU.toBytes (ResponseAPDU.setSW2 (ResponseAPDU.setSW1 r 0x90) 0)
     = Ok (ResponseAPDU.data r ++ [u8 0x90; u8 0]).
Proof.
  intros r. apply (ResponseAPDU_setSW1_setSW2 r 0x90 0); lia.
Defined.

(** ** More of the FFI wrapper *)

Lemma size_written (buffer bytes : Uint8Array) :
  size (Native.written buffer bytes) = size buffer.
Proof. unfold size. rewrite written_length. reflexivity. Qed.

(** X10.  [SCardTransmit] never returns more bytes than its receive
    buffer holds, whatever length the library reports; it issues exactly
    one native call, and the only exception it throws is the PCSCException
    of a status other than 0. *)
Theorem SCardTransmit_response_within_buffer
        (platform : Platform) (lib : Native.Library)
        (hCard : Z) (sendBuffer : Uint8Array) (recvLength : Z) (tr : Native.Trace) :
  0 <= recvLength + 2 ->
  4 <= DWORD_SIZE platform ->
  match fst (FFI.SCardTransmit platform lib hCard sendBuffer recvLength tr) with
  | Ok response => size response <= recvLength + 2
  | Throw e => exists rc, rc <> 0 /\ e = PCSCException rc "SCardTransmit"
  end
  /\ List.length (snd (FFI.SCardTransmit platform lib hCard sendBuffer recvLength tr))
     = S (List.length tr).
Proof.
  intros Hr Hd.
  destruct (SCardTransmit_run platform lib hCard sendBuffer recvLength tr Hr Hd)
    as (length_ & reported & _ & _ & P & R).
  cbv zeta in R. rewrite R. cbn [fst snd]. split.
  - destruct (Z.eqb_spec (Native.rc (lib tr (Native.SCardTransmit hCard PCI sendBuffer
               (size sendBuffer) PCI (repeat x00 (Z.to_nat (recvLength + 2))) length_))) 0)
      as [E|E].
    + unfold size. rewrite length_firstn, written_length, repeat_length. lia.
    + eexists. split; [exact E | reflexivity].
  - rewrite length_app. cbn [List.length]. lia.
Qed.

Lemma SCardTransmit_response_within_buffer_witness :
  match fst (FFI.SCardTransmit sample_platform (respond [x6a; x82; x00; x00; x00] 9)
                               1 SELECT 2 []) with
  | Ok response => size response <= 2 + 2
  | Throw e => exists rc, rc <> 0 /\ e = PCSCException rc "SCardTransmit"
  end
  /\ List.length (snd (FFI.SCardTransmit sample_platform
                         (respond [x6a; x82; x00; x00; x00] 9) 1 SELECT 2 []))
     = S (List.length (@nil Native.Call)).
Proof.
  apply (SCardTransmit_response_within_buffer sample_platform
           (respond [x6a; x82; x00; x00; x00] 9) 1 SELECT 2 []).
  - lia.
  - simpl. lia.
Defined.

(** What [transmitAPDU] does: encode, one native call whatever the handle,
    decode. *)
Lemma transmitAPDU_run (platform : Platform) (lib : Native.Library)
      (card : FFI.FFICard) (commandAPDU : CommandAPDU.t) (tr : Native.Trace) :
  0 <= match CommandAPDU.le commandAPDU with Some n => n | None => 0 end ->
  4 <= DWORD_SIZE platform ->
  exists commandBytes length_ reported,
    let recvBuffer :=
      repeat x00 (Z.to_nat (match CommandAPDU.le commandAPDU with
                            | Some n => n | None => 0 end + 4)) in
    let c := Native.SCardTransmit (FFI.handle card) PCI commandBytes
                                  (size commandBytes) PCI recvBuffer length_ in
    let reply := lib tr c in
    let response := firstn (Z.to_nat reported)
                           (Native.written recvBuffer (Native.out1 reply)) in
    CommandAPDU.toBytes commandAPDU (Some (FFI.protocol card)) = Ok commandBytes /\
    getUint32 (Native.written length_ (Native.out2 reply)) 0 true = Ok reported /\
    FFI.transmitAPDU platform lib card commandAPDU tr
    = (if Native.rc reply =? 0 then ResponseAPDU.new (Some response) None
       else Throw (PCSCException (Native.rc reply) "SCardTransmit"),
       tr ++ [c]).
Proof.
  intros Hle Hd.
  assert (exists commandBytes,
             CommandAPDU.toBytes commandAPDU (Some (FFI.protocol card))
             = Ok commandBytes) as (commandBytes & B)
    by (rewrite toBytes_eq; eexists; reflexivity).
  set (n := match CommandAPDU.le commandAPDU with Some n => n | None => 0 end) in *.
  destruct (SCardTransmit_run platform lib (FFI.handle card) commandBytes (2 + n) tr)
    as (length_ & reported & _ & G & _ & R); [lia | exact Hd |].
  cbv zeta in G, R. replace (2 + n + 2) with (n + 4) in G, R by lia.
  exists commandBytes, length_, reported. cbv zeta.
  split; [exact B|]. split; [exact G|].
  unfold FFI.transmitAPDU. rewrite lift_bind, B. cbv iota beta.
  fold n. unfold ffi_bind at 1. rewrite R.
  destruct (Native.rc _ =? 0); reflexivity.
Qed.

(** X11.  [transmitAPDU] does not check the handle: for every card, also
    one whose handle is 0, it issues the native transmit call, with the
    command encoded under the protocol of the card and a receive buffer of
    le + 4 bytes (4 bytes when le is unset). *)
Theorem transmitAPDU_native_call (platform : Platform) (lib : Native.Library)
        (card : FFI.FFICard) (commandAPDU : CommandAPDU.t) (tr : Native.Trace) :
  0 <= match CommandAPDU.le commandAPDU with Some n => n | None => 0 end ->
  4 <= DWORD_SIZE platform ->
  exists commandBytes recvBuffer length_,
    CommandAPDU.toBytes commandAPDU (Some (FFI.protocol card)) = Ok commandBytes
    /\ size recvBuffer
       = match CommandAPDU.le commandAPDU with Some n => n | None => 0 end + 4
    /\ snd (FFI.transmitAPDU platform lib card commandAPDU tr)
       = tr ++ [Native.SCardTransmit (FFI.handle card) PCI commandBytes
                                     (size commandBytes) PCI recvBuffer length_].
Proof.
  intros Hle Hd.
  destruct (transmitAPDU_run platform lib card commandAPDU tr Hle Hd)
    as (commandBytes & length_ & reported & B & _ & R).
  cbv zeta in R.
  exists commandBytes. eexists. exists length_.
  split; [exact B|]. split; [|rewrite R; reflexivity].
  apply size_repeat. lia.
Qed.

Lemma transmitAPDU_native_call_witness :
  exists commandBytes recvBuffer length_,
    CommandAPDU.toBytes select_expecting_2 (Some (FFI.protocol disconnected_card))
    = Ok commandBytes
    /\ size recvBuffer
       = match CommandAPDU.le select_expecting_2 with Some n => n | None => 0 end + 4
    /\ snd (FFI.transmitAPDU sample_platform (respond [x6a; x82] 2)
                             disconnected_card select_expecting_2 [])
       = [] ++ [Native.SCardTransmit (FFI.handle disconnected_card) PCI commandBytes
                                     (size commandBytes) PCI recvBuffer length_].
Proof.
  apply (transmitAPDU_native_call sample_platform (respond [x6a; x82] 2)
                                  disconnected_card select_expecting_2 []).
  - simpl. lia.
  - simpl. lia.
Defined.

(** X12.  The outcomes of [transmitAPDU]: a ResponseAPDU of at most
    le + 2 data bytes with a 16-bit SW, the PCSCException of a status
    other than 0, or, when the library reported fewer than 2 bytes, the
    SmartCardException of the ResponseAPDU constructor; nothing else. *)
Theorem transmitAPDU_outcome (platform : Platform) (lib : Native.Library)
        (card : FFI.FFICard) (commandAPDU : CommandAPDU.t) (tr : Native.Trace) :
  0 <= match CommandAPDU.le commandAPDU with Some n => n | None => 0 end ->
  4 <= DWORD_SIZE platform ->
  match fst (FFI.transmitAPDU platform lib card commandAPDU tr) with
  | Ok r =>
      2 <= ResponseAPDU.La r + 2
           <= match CommandAPDU.le commandAPDU with Some n => n | None => 0 end + 4
      /\ 0 <= ResponseAPDU.SW r < 65536
  | Throw (PCSCException rc func) => rc <> 0 /\ func = "SCardTransmit"%string
  | Throw (SmartCardException message) =>
      message = "ResponseAPDU Buffer invalid"%string
  | Throw _ => False
  end.
Proof.
  intros Hle Hd.
  destruct (transmitAPDU_run platform lib card commandAPDU tr Hle Hd)
    as (commandBytes & length_ & reported & _ & _ & R).
  cbv zeta in R. rewrite R. cbn [fst]. clear R.
  set (n := match CommandAPDU.le commandAPDU with Some n => n | None => 0 end) in *.
  match goal with |- context [Native.rc ?x =? 0] => set (reply := x) end.
  destruct (Z.eqb_spec (Native.rc reply) 0) as [E|E]; [|split; [exact E | reflexivity]].
  set (response := firstn _ _).
  assert (Hs : size response <= n + 4).
  { subst response. unfold size.
    rewrite length_firstn, written_length, repeat_length. lia. }
  destruct (Z.ltb_spec (size response) 2) as [L|L].
  - pose proof (ResponseAPDU_new_short response None L) as T.
    cbv delta [Uint8Array] in T |- *. rewrite T. reflexivity.
  - destruct (split_last_two response L) as (d & hi & lo & X).
    rewrite X in *. pose proof (ResponseAPDU_new_layout d hi lo None) as T.
    cbv delta [Uint8Array] in T |- *. rewrite T.
    unfold ResponseAPDU.La. cbn [ResponseAPDU.data ResponseAPDU.SW].
    rewrite size_app in Hs. change (size [hi; lo]) with 2 in Hs.
    pose proof (size_nonneg d). pose proof (num_range hi). pose proof (num_range lo).
    lia.
Qed.

Lemma transmitAPDU_outcome_witness :
  match fst (FFI.transmitAPDU sample_platform (respond [x6a] 1)
                              sample_card select_expecting_2 []) with
  | Ok r =>
      2 <= ResponseAPDU.La r + 2
           <= match CommandAPDU.le select_expecting_2 with Some n => n | None => 0 end + 4
      /\ 0 <= ResponseAPDU.SW r < 65536
  | Throw (PCSCException rc func) => rc <> 0 /\ func = "SCardTransmit"%string
  | Throw (SmartCardException message) =>
      message = "ResponseAPDU Buffer invalid"%string
  | Throw _ => False
  end.
Proof.
  apply (transmitAPDU_outcome sample_platform (respond [x6a] 1)
                              sample_card select_expecting_2 []).
  - simpl. lia.
  - simpl. lia.
Defined.

Section MarshalFacts.

Context {State : Type} `{SCARDREADERSTATE State}.
Variable platform : Platform.

Lemma forEach_set_concat (states : list State) (index : Z) (pre : Uint8Array) :
  0 <= SCARDREADERSTATE_SIZE platform ->
  Forall (fun state => size (buffer state) = SCARDREADERSTATE_SIZE platform) states ->
  size pre = index * SCARDREADERSTATE_SIZE platform ->
  FFI.forEach_set platform states index
    (pre ++ repeat x00 (List.length states
                        * Z.to_nat (SCARDREADERSTATE_SIZE platform)))
  = Ok (pre ++ List.concat (map buffer states)).
Proof.
  intros Hs F. revert index pre.
  induction F as [|state rest Hb F IH]; intros index pre Hp.
  - cbn. reflexivity.
  - cbn [FFI.forEach_set List.length map List.concat Nat.mul].
    rewrite set_fill; [| lia | unfold size in Hb; lia].
    cbn [bind].
    replace (Z.to_nat (SCARDREADERSTATE_SIZE platform)
             + List.length rest * Z.to_nat (SCARDREADERSTATE_SIZE platform)
             - List.length (buffer state))%nat
      with (List.length rest * Z.to_nat (SCARDREADERSTATE_SIZE platform))%nat
      by (unfold size in Hb; lia).
    rewrite IH by (rewrite size_app; lia).
    rewrite <- app_assoc. reflexivity.
Qed.

Lemma marshal_eq (states : list State) :
  0 <= SCARDREADERSTATE_SIZE platform ->
  Forall (fun state => size (buffer state) = SCARDREADERSTATE_SIZE platform) states ->
  FFI.marshal platform states = Ok (List.concat (map buffer states)).
Proof.
  intros Hs F. unfold FFI.marshal.
  pose proof (size_nonneg states).
  rewrite new_Uint8Array_ok by nia. cbn [bind].
  replace (Z.to_nat (SCARDREADERSTATE_SIZE platform * size states))
    with (List.length states * Z.to_nat (SCARDREADERSTATE_SIZE platform))%nat
    by (unfold size; nia).
  change (repeat x00 ?n) with ([] ++ repeat x00 n).
  rewrite forEach_set_concat by (assumption || reflexivity).
  reflexivity.
Qed.

End MarshalFacts.

(** X13.  Marshalling: when every state holds a buffer of the record size,
    the buffer handed to the native call is the concatenation of the
    states' buffers in order, record i at offset i times the record size. *)
Theorem marshal_concatenates_records
        (platform : Platform) {State : Type} `{SCARDREADERSTATE State}
        (states : list State) :
  0 <= SCARDREADERSTATE_SIZE platform ->
  Forall (fun state => size (buffer state) = SCARDREADERSTATE_SIZE platform) states ->
  FFI.marshal platform states = Ok (List.concat (map buffer states))
  /\ size (List.concat (map buffer states)) = SCARDREADERSTATE_SIZE platform * size states.
Proof.
  intros Hs F. split; [apply marshal_eq; assumption|].
  induction F as [|state rest Hb F IH]; [cbn; lia|].
  cbn [map List.concat]. rewrite size_app, size_cons, IH, Hb. lia.
Qed.

Lemma marshal_concatenates_records_witness :
  FFI.marshal sample_platform two_readers = Ok (List.concat (map buffer two_readers))
  /\ size (List.concat (map buffer two_readers))
     = SCARDREADERSTATE_SIZE sample_platform * size two_readers.
Proof.
  apply (marshal_concatenates_records sample_platform two_readers).
  - simpl. lia.
  - repeat constructor.
Defined.

(** X14.  With a single watched reader, a successful call hands
    [handleChange] the whole record as the library left it, and returns
    the reader exactly when [handleChange] reports a change. *)
Theorem SCardGetStatusChange_single_reader
        (platform : Platform) (lib : Native.Library)
        {State : Type} `{SCARDREADERSTATE State}
        (hContext timeout : Z) (state : State) (tr : Native.Trace) :
  size (buffer state) = SCARDREADERSTATE_SIZE platform ->
  let c := Native.SCardGetStatusChange hContext timeout (buffer state) 1 in
  let record := Native.written (buffer state) (Native.out1 (lib tr c)) in
  Native.rc (lib tr c) = 0 ->
  SCARD_ERROR_TIMEOUT platform <> 0 ->
  FFI.SCardGetStatusChange platform lib hContext timeout [state] tr
  = (('(isChanged, state') <- handleChange state record ;;
      Ok ([state'], if isChanged : bool then [state'] else [])),
     tr ++ [c])
  /\ size record = SCARDREADERSTATE_SIZE platform.
Proof.
  intros Hb c record R T.
  pose proof (size_nonneg (buffer state)) as Hs. rewrite Hb in Hs.
  split; [|subst record; rewrite size_written; exact Hb].
  unfold FFI.SCardGetStatusChange.
  rewrite lift_bind, marshal_eq by (assumption || (repeat constructor; assumption)).
  cbn [map List.concat]. rewrite app_nil_r. cbv iota beta.
  rewrite call_bind. change (size [state]) with 1. fold c. rewrite R.
  destruct (Z.eqb_spec 0 (SCARD_ERROR_TIMEOUT platform)) as [E|_];
    [symmetry in E; contradiction|].
  rewrite lift_bind. cbn [FFI.ensureSCardSuccess Z.eqb negb].
  unfold lift. f_equal. fold record.
  cbn [FFI.forEach_handleChange].
  rewrite Z.mul_0_l, slice_prefix by exact Hs.
  rewrite firstn_all2
    by (subst record; rewrite written_length; unfold size in Hb; lia).
  destruct (handleChange state record) as [[isChanged state']|e]; reflexivity.
Qed.

Lemma SCardGetStatusChange_single_reader_witness :
  FFI.SCardGetStatusChange sample_platform (succeed_writing [x00; x00; x00; x20]) 1 0
                           [[x00; x00; x00; x00]] []
  = (Ok ([[x00; x00; x00; x20]], [[x00; x00; x00; x20]]),
     [Native.SCardGetStatusChange 1 0 [x00; x00; x00; x00] 1])
  /\ size [x00; x00; x00; x20] = 4.
Proof.
  exact (SCardGetStatusChange_single_reader sample_platform
           (succeed_writing [x00; x00; x00; x20]) 1 0 [x00; x00; x00; x00] []
           eq_refl eq_refl ltac:(discriminate)).
Defined.

(** ** The context and card life cycle *)

Lemma sys_lift_bind {A B : Type} (m : result A) (k : A -> Sys B) (tr : Symbols.Trace) :
  sys_bind (sys_lift m) k tr
  = match m with Ok a => k a tr | Throw e => (Throw e, tr) end.
Proof. unfold sys_bind, sys_lift. destruct m; reflexivity. Qed.

Lemma invoke_bind {B : Type} (lib : Symbols.Library) (c : Symbols.Call)
      (k : Symbols.Reply -> Sys B) (tr : Symbols.Trace) :
  sys_bind (invoke lib c) k tr = k (lib tr c) (tr ++ [c]).
Proof. reflexivity. Qed.

Lemma number_le_bound (bytes : list byte) :
  0 <= number_le bytes < 2 ^ (8 * Z.of_nat (List.length bytes)).
Proof.
  induction bytes as [|b bytes IH].
  - cbn. lia.
  - cbn [number_le List.length]. pose proof (num_range b).
    replace (8 * Z.of_nat (S (List.length bytes)))
      with (8 + 8 * Z.of_nat (List.length bytes)) by lia.
    rewrite Z.pow_add_r by lia. change (2 ^ 8) with 256. nia.
Qed.

Lemma getUint_bound (width : nat) (view : Uint8Array) (byteOffset : Z) (e : bool)
      (n : Z) :
  getUint width view byteOffset e = Ok n -> 0 <= n < 2 ^ (8 * Z.of_nat width).
Proof.
  unfold getUint.
  destruct (Z.ltb_spec byteOffset 0); [discriminate|].
  destruct (Z.ltb_spec (size view) (byteOffset + Z.of_nat width)); [discriminate|].
  cbn [orb]. intros E. apply Ok_inj in E. subst n.
  set (l := ordered e _).
  assert (L : List.length l = width).
  { subst l. unfold ordered. destruct e; rewrite ?length_rev, length_firstn, length_skipn;
      unfold size in *; lia. }
  rewrite <- L. apply number_le_bound.
Qed.



(** X16.  [SCardEstablishContext] issues one native call on a buffer of
    HANDLE_SIZE bytes and never fails locally: it returns a handle below
    2^(8 * HANDLE_SIZE) when the status is 0 and throws the PCSCException
    of the status otherwise. *)
Theorem SCardEstablishContext_outcome
        (platform : Platform) (lib : Symbols.Library) (scope : Z)
        (tr : Symbols.Trace) :
  let c := Symbols.SCardEstablishContext
             scope 0 0 (repeat x00 (Z.to_nat (FFI.HANDLE_SIZE platform))) in
  snd (Session.SCardEstablishContext platform lib scope tr) = tr ++ [c]
  /\ match fst (Session.SCardEstablishContext platform lib scope tr) with
     | Ok hContext =>
         Symbols.rc (lib tr c) = 0
         /\ 0 <= hContext < 2 ^ (8 * FFI.HANDLE_SIZE platform)
     | Throw e =>
         Symbols.rc (lib tr c) <> 0
         /\ e = PCSCException (Symbols.rc (lib tr c)) "SCardEstablishContext"
     end.
Proof.
  intros c. unfold Session.SCardEstablishContext.
  assert (Hh : 0 <= FFI.HANDLE_SIZE platform)
    by (unfold FFI.HANDLE_SIZE; destruct (isWin platform); lia).
  rewrite sys_lift_bind, new_Uint8Array_ok by exact Hh. cbv iota beta.
  rewrite invoke_bind. fold c.
  rewrite sys_lift_bind, ensureSCardSuccess_spec.
  destruct (Z.eqb_spec (Symbols.rc (lib tr c)) 0) as [E|E];
    [|split; [reflexivity | split; [exact E | reflexivity]]].
  unfold sys_lift. cbn [fst snd]. split; [reflexivity|].
  set (ctx := Native.written _ _).
  assert (L : size ctx = FFI.HANDLE_SIZE platform).
  { subst ctx. rewrite size_written. apply size_repeat. exact Hh. }
  unfold FFI.HANDLE_SIZE in *. unfold getBigUint64, getUint32.
  destruct (isWin platform).
  - destruct (getUint_ok 8 ctx 0 true) as (n & G & _);
      [lia | rewrite L; simpl; lia |].
    rewrite G. split; [exact E|]. apply (getUint_bound 8 ctx 0 true n G).
  - destruct (getUint_ok 4 ctx 0 true) as (n & G & _);
      [lia | rewrite L; simpl; lia |].
    rewrite G. split; [exact E|]. apply (getUint_bound 4 ctx 0 true n G).
Qed.

Lemma SCardDisconnect_run (lib : Symbols.Library) (hCard disposition : Z)
      (tr : Symbols.Trace) :
  Session.SCardDisconnect lib hCard disposition tr
  = (if Symbols.rc (lib tr (Symbols.SCardDisconnect hCard disposition)) =? 0
     then Ok tt
     else Throw (PCSCException
                   (Symbols.rc (lib tr (Symbols.SCardDisconnect hCard disposition)))
                   "SCardDisconnect"),
     tr ++ [Symbols.SCardDisconnect hCard disposition]).
Proof.
  unfold Session.SCardDisconnect. rewrite invoke_bind.
  unfold sys_lift. rewrite ensureSCardSuccess_spec. reflexivity.
Qed.

(** X17.  [disconnect] leaves the handle at 0 in every case.  On a
    connected card it issues the native disconnect and resets handle and
    protocol even when the library fails, in which case the PCSCException
    propagates and [waitForChange] is not run; on a card whose handle is
    already 0 it only runs [waitForChange]. *)
Theorem disconnect_clears_card
        (lib : Symbols.Library) (defaults : Defaults)
        (waitForChange : FFIReader -> Sys ReaderStatus)
        (card : FFI.FFICard) (disposition : option Z) (tr : Symbols.Trace) :
  let run := Session.disconnect lib defaults waitForChange card disposition tr in
  let c := Symbols.SCardDisconnect
             (FFI.handle card)
             match disposition with
             | Some d => d
             | None => Disposition_LeaveCard defaults
             end in
  FFI.handle (snd (fst run)) = 0
  /\ (FFI.handle card <> 0 ->
      snd (fst run) = FFI.mkFFICard (FFI.reader card) 0 0
      /\ (Symbols.rc (lib tr c) <> 0 ->
          fst (fst run) = Throw (PCSCException (Symbols.rc (lib tr c))
                                               "SCardDisconnect")
          /\ snd run = tr ++ [c])
      /\ (Symbols.rc (lib tr c) = 0 ->
          (fst (fst run), snd run) = waitForChange (FFI.reader card) (tr ++ [c])))
  /\ (FFI.handle card = 0 ->
      snd (fst run) = card
      /\ (fst (fst run), snd run) = waitForChange (FFI.reader card) tr).
Proof.
  intros run c. subst run. unfold Session.disconnect.
  destruct (Z.eqb_spec (FFI.handle card) 0) as [Z0|N0]; cbn [negb].
  - destruct (waitForChange (FFI.reader card) tr) as [status tr'] eqn:W.
    cbn [fst snd]. split; [exact Z0|]. split; [intros N; contradiction|].
    intros _. split; reflexivity.
  - rewrite SCardDisconnect_run. fold c.
    destruct (Z.eqb_spec (Symbols.rc (lib tr c)) 0) as [E|E].
    + cbn [FFI.reader].
      destruct (waitForChange (FFI.reader card) (tr ++ [c])) as [status tr'] eqn:W.
      cbn [fst snd FFI.handle]. split; [reflexivity|].
      split; [|intros Z0; contradiction].
      intros _. split; [reflexivity|].
      split; [intros N; contradiction | intros _; reflexivity].
    + cbn [fst snd FFI.handle]. split; [reflexivity|].
      split; [|intros Z0; contradiction].
      intros _. split; [reflexivity|].
      split; [intros _; split; reflexivity | intros Z0; contradiction].
Qed.

(** X18.  After [disconnect], whatever its outcome, [transmit] and
    [reconnect] throw the SmartCardException of a disconnected card
    without calling the library. *)
Theorem transmit_after_disconnect
        (lib : Symbols.Library) (defaults : Defaults)
        (waitForChange : FFIReader -> Sys ReaderStatus)
        (card : FFI.FFICard) (disposition : option Z) (tr : Symbols.Trace)
        (platform : Platform) (native : Native.Library)
        (command : Uint8Array) (expectedLen : option Z) (calls : Native.Trace) :
  let card' :=
    snd (fst (Session.disconnect lib defaults waitForChange card disposition tr)) in
  FFI.transmit platform native card' command expectedLen calls
  = (Throw (SmartCardException "SmartCard disconected"), calls)
  /\ forall shareMode preferredProtocols initialization later,
       Session.reconnect platform lib defaults waitForChange card'
                         shareMode preferredProtocols initialization later
       = (Throw (SmartCardException "SmartCard disconected"), card', later).
Proof.
  intros card'.
  assert (Z0 : FFI.handle card' = 0).
  { subst card'. unfold Session.disconnect.
    destruct (Z.eqb_spec (FFI.handle card) 0) as [Z0|N0]; cbn [negb].
    - destruct (waitForChange (FFI.reader card) tr). exact Z0.
    - destruct (Session.SCardDisconnect lib (FFI.handle card) _ tr) as [[u|e] tr'].
      + cbn [FFI.reader]. destruct (waitForChange (FFI.reader card) tr'). reflexivity.
      + reflexivity. }
  split.
  - unfold FFI.transmit. rewrite Z0. reflexivity.
  - intros. unfold Session.reconnect. rewrite Z0. reflexivity.
Qed.

(** X19.  [reconnect] on a connected card: when the library fails the
    PCSCException propagates and the card is unchanged; when it succeeds
    the protocol of the card becomes the double word the library wrote,
    read little endian, the handle is kept and [waitForChange] runs. *)
Theorem reconnect_outcome
        (platform : Platform) (lib : Symbols.Library) (defaults : Defaults)
        (waitForChange : FFIReader -> Sys ReaderStatus)
        (card : FFI.FFICard) (shareMode preferredProtocols initialization : Z)
        (tr : Symbols.Trace) :
  4 <= DWORD_SIZE platform ->
  FFI.handle card <> 0 ->
  let run := Session.reconnect platform lib defaults waitForChange card
               (Some shareMode) (Some preferredProtocols) (Some initialization) tr in
  let c := Symbols.SCardReconnect
             (FFI.handle card) shareMode preferredProtocols initialization
             (repeat x00 (Z.to_nat (DWORD_SIZE platform))) in
  (Symbols.rc (lib tr c) <> 0 ->
   run = (Throw (PCSCException (Symbols.rc (lib tr c)) "SCardReconnect"),
          card, tr ++ [c]))
  /\ (Symbols.rc (lib tr c) = 0 ->
      exists protocol,
        getUint32 (Native.written (repeat x00 (Z.to_nat (DWORD_SIZE platform)))
                                  (Symbols.out 0 (lib tr c))) 0 true = Ok protocol
        /\ 0 <= protocol < 2 ^ 32
        /\ snd (fst run) = FFI.mkFFICard (FFI.reader card) (FFI.handle card) protocol
        /\ (fst (fst run), snd run) = waitForChange (FFI.reader card) (tr ++ [c])).
Proof.
  intros Hd Hh run c. subst run. unfold Session.reconnect.
  destruct (Z.eqb_spec (FFI.handle card) 0) as [?|_]; [contradiction|].
  unfold Session.SCardReconnect.
  rewrite sys_lift_bind, new_Uint8Array_ok by lia. cbv iota beta.
  rewrite invoke_bind. fold c.
  rewrite sys_lift_bind, ensureSCardSuccess_spec.
  destruct (Z.eqb_spec (Symbols.rc (lib tr c)) 0) as [E|E].
  - split; [intros N; contradiction|]. intros _.
    set (buf := Native.written _ _).
    destruct (getUint_ok 4 buf 0 true) as (protocol & G & _).
    { lia. }
    { subst buf. rewrite size_written, size_repeat by lia. simpl. lia. }
    exists protocol. split; [exact G|].
    split; [apply (getUint_bound 4 buf 0 true protocol G)|].
    unfold sys_lift, getUint32. rewrite G. cbn [FFI.reader].
    destruct (waitForChange (FFI.reader card) (tr ++ [c])); split; reflexivity.
  - split; [intros _; reflexivity | intros Z0; contradiction].
Qed.

Lemma reconnect_outcome_witness :
  let run := Session.reconnect sample_platform (answer 0 [x02; x00; x00; x00])
               sample_defaults report_status sample_card
               (Some 2) (Some 3) (Some 0) [] in
  let c := Symbols.SCardReconnect (FFI.handle sample_card) 2 3 0
             (repeat x00 (Z.to_nat (DWORD_SIZE sample_platform))) in
  (Symbols.rc (answer 0 [x02; x00; x00; x00] [] c) <> 0 ->
   run = (Throw (PCSCException (Symbols.rc (answer 0 [x02; x00; x00; x00] [] c))
                               "SCardReconnect"),
          sample_card, [] ++ [c]))
  /\ (Symbols.rc (answer 0 [x02; x00; x00; x00] [] c) = 0 ->
      exists protocol,
        getUint32 (Native.written (repeat x00 (Z.to_nat (DWORD_SIZE sample_platform)))
                                  (Symbols.out 0 (answer 0 [x02; x00; x00; x00] [] c)))
                  0 true = Ok protocol
        /\ 0 <= protocol < 2 ^ 32
        /\ snd (fst run)
           = FFI.mkFFICard (FFI.reader sample_card) (FFI.handle sample_card) protocol
        /\ (fst (fst run), snd run) = report_status (FFI.reader sample_card) ([] ++ [c])).
Proof.
  apply (reconnect_outcome sample_platform (answer 0 [x02; x00; x00; x00])
                           sample_defaults report_status sample_card 2 3 0 []).
  - simpl. lia.
  - discriminate.
Defined.
